(** * Load checks of playwright-baseline-tests

    A shallow embedding of [src/check/load/index.ts]: the six page-load
    checks, the asynchronous functions they are written as, and the part of
    the browser-automation framework they call (page, response, locator,
    [expect]).

    The framework is the environment.  A page handle is a record giving,
    for each capability the checks use, how the promise returned by the
    call settles.  A check is an [Async] computation over a [World] that
    records the framework calls in program order, the promises that were
    created and never awaited, the arrays the check allocates, the event
    listeners it subscribes, and the request-failed events the event loop
    still has to deliver. *)

From Stdlib Require Import String Ascii List ZArith NArith Bool Lia DecimalString.
Import ListNotations.

Open Scope list_scope.
Open Scope Z_scope.

Notation "s ^^ t" := (String.append s t) (at level 60, right associativity).

(** ** Strings of messages *)

Definition dquote : string := String (ascii_of_nat 34) EmptyString.
Definition newline : string := String (ascii_of_nat 10) EmptyString.

(** [String.prototype.includes]: [includes needle s] holds when [needle]
    occurs in [s]. *)
Fixpoint includes (needle s : string) : bool :=
  String.prefix needle s ||
  match s with
  | EmptyString => false
  | String _ s' => includes needle s'
  end.

(** Template-literal rendering of an integral number. *)
Definition numberToString (n : Z) : string :=
  NilZero.string_of_int (Z.to_int n).

(** ** Values seen by [expect] *)

Inductive Value :=
| VBool (b : bool)
| VNum (n : Z)
| VStr (s : string).

Definition Object_is (a b : Value) : bool :=
  match a, b with
  | VBool x, VBool y => Bool.eqb x y
  | VNum x, VNum y => Z.eqb x y
  | VStr x, VStr y => String.eqb x y
  | _, _ => false
  end.

Definition printValue (v : Value) : string :=
  match v with
  | VBool true => "true"
  | VBool false => "false"
  | VNum n => numberToString n
  | VStr s => dquote ^^ s ^^ dquote
  end.

(** The matchers the checks use. *)
Inductive Matcher := toBe | not_toBe | toBeGreaterThan.

Definition matches (m : Matcher) (received expected : Value) : bool :=
  match m with
  | toBe => Object_is received expected
  | not_toBe => negb (Object_is received expected)
  | toBeGreaterThan =>
      match received, expected with
      | VNum a, VNum b => b <? a
      | _, _ => false
      end
  end.

(** ** Errors *)

Record AssertionError := mkAssertionError {
  customMessage : option string;
  matcher : Matcher;
  expected : Value;
  received : Value
}.

Inductive Error :=
| AssertionFailed (e : AssertionError)
| FrameworkError (msg : string).

Definition matcherHint (m : Matcher) : string :=
  match m with
  | toBe => "expect(received).toBe(expected) // Object.is equality"
  | not_toBe => "expect(received).not.toBe(expected) // Object.is equality"
  | toBeGreaterThan => "expect(received).toBeGreaterThan(expected)"
  end.

Definition expectedLine (m : Matcher) (v : Value) : string :=
  match m with
  | toBe => "Expected: " ^^ printValue v
  | not_toBe => "Expected: not " ^^ printValue v
  | toBeGreaterThan => "Expected: > " ^^ printValue v
  end.

(** The text of an assertion failure: the caller's message first when one
    was given, then the matcher's report in the
    [Expected: ...<newline>Received: ...] layout that the repository's tests
    match against. *)
Definition assertionMessage (e : AssertionError) : string :=
  match customMessage e with
  | Some m => m ^^ newline ^^ newline
  | None => EmptyString
  end ^^ matcherHint (matcher e) ^^ newline ^^ newline
      ^^ expectedLine (matcher e) (expected e) ^^ newline
      ^^ "Received: " ^^ printValue (received e).

Definition errorMessage (e : Error) : string :=
  match e with
  | AssertionFailed a => assertionMessage a
  | FrameworkError m => m
  end.

(** ** Promises *)

(** How a promise settles; [Pending] is a promise that never settles. *)
Inductive Promise (A : Type) :=
| Resolved (a : A)
| Rejected (e : Error)
| Pending.

Arguments Resolved {A} a.
Arguments Rejected {A} e.
Arguments Pending {A}.

Definition forget {A} (p : Promise A) : Promise unit :=
  match p with
  | Resolved _ => Resolved tt
  | Rejected e => Rejected e
  | Pending => Pending
  end.

(** ** Framework objects *)

(** [document.readyState] has the DOM type
    ["loading" | "interactive" | "complete"]. *)
Inductive DocumentReadyState := loading | interactive | complete.

Definition readyStateString (s : DocumentReadyState) : string :=
  match s with
  | loading => "loading"
  | interactive => "interactive"
  | complete => "complete"
  end.

Inductive LoadState := load | domcontentloaded | networkidle | commit.

Inductive WaitForState := attached | detached | visible | hidden.

(** A JavaScript string as its sequence of UTF-16 code units; used for the
    body markup, where the whitespace class of [trim] matters. *)
Definition JsString := list N.

Record Locator := mkLocator {
  (** [locator.waitFor({ state, timeout })] *)
  waitFor : WaitForState -> Z -> Promise unit
}.

Record Request := mkRequest {
  resourceType : string;
  requestUrl : string
}.

Record Response := mkResponse {
  ok : bool;
  status : Z;
  statusText : string;
  responseUrl : string
}.

Record Page := mkPage {
  (** [page.waitForLoadState(state)] *)
  waitForLoadState : LoadState -> Promise unit;
  (** [page.evaluate(() => document.readyState)] *)
  evaluate_readyState : Promise DocumentReadyState;
  (** [page.$eval("body", (body) => body.innerHTML)] *)
  eval_body_innerHTML : Promise JsString;
  (** [page.locator(selector)]; [None] stands for [null] and [undefined],
      the two values the check guards against. *)
  locator : string -> option Locator;
  (** [page.route(glob, handler)]; the handler of the check lets every
      request continue. *)
  route : string -> Promise unit
}.

Module CheckArgs.
Record t := mk { page : Page }.
End CheckArgs.

Module CheckResponseArgs.
Record t := mk { page : Page; response : Response }.
End CheckResponseArgs.

Module CheckTransientVisibilityArgs.
Record t := mk {
  page : Page;
  selectors : list string;
  maxVisibleTime : option Z
}.
End CheckTransientVisibilityArgs.

(** [Partial<Omit<CheckTransientVisibilityArgs, "page">> &
     Pick<CheckTransientVisibilityArgs, "page">] *)
Module CheckLoadingIndicatorsArgs.
Record t := mk {
  page : Page;
  selectors : option (list string);
  maxVisibleTime : option Z
}.
End CheckLoadingIndicatorsArgs.

(** ** The world a check runs in *)

Inductive Call :=
| page_waitForLoadState (s : LoadState)
| page_evaluate_readyState
| page_eval_body_innerHTML
| page_locator (selector : string)
| page_route (glob : string)
| page_on (event : string)
| response_ok
| response_status
| expect_ (message : option string) (actual : Value) (m : Matcher) (v : Value)
| expect_toPass (message : string).

(** An event listener, by the closure it is and what that closure
    captures. *)
Inductive Handler :=
(** [(request) => { if (request.resourceType() === "stylesheet" ||
     request.resourceType() === "script") failedRequests.push(request) }],
    with the address of [failedRequests]. *)
| collectFailedRequest (failedRequests : nat).

Inductive Task :=
(** [expect(async () => { locator.waitFor({ state, timeout }) },
     message).toPass()], its promise dropped. *)
| toPassTask (message : string) (l : Locator) (s : WaitForState) (timeout : Z)
(** The promise of an async function that was called and neither awaited
    nor returned. *)
| droppedCall (settles : Promise unit).

Record World := mkWorld {
  calls : list Call;
  floating : list Task;
  heap : list (list Request);
  listeners : list (string * Handler);
  (** request-failed events still to come, in batches: one batch is
      delivered at each suspension of the running check, the rest after it
      has returned. *)
  schedule : list (list Request)
}.

Definition emptyWorld (sched : list (list Request)) : World :=
  mkWorld [] [] [] [] sched.

Definition log (c : Call) (w : World) : World :=
  mkWorld (calls w ++ [c]) (floating w) (heap w) (listeners w) (schedule w).

Definition drop (t : Task) (w : World) : World :=
  mkWorld (calls w) (floating w ++ [t]) (heap w) (listeners w) (schedule w).

(** *** Arrays *)

Definition alloc (w : World) : World * nat :=
  (mkWorld (calls w) (floating w) (heap w ++ [[]]) (listeners w) (schedule w),
   length (heap w)).

Fixpoint push_at (a : nat) (r : Request) (h : list (list Request))
  : list (list Request) :=
  match h, a with
  | [], _ => []
  | arr :: h', O => (arr ++ [r]) :: h'
  | arr :: h', S a' => arr :: push_at a' r h'
  end.

Definition array_length (a : nat) (w : World) : Z :=
  Z.of_nat (length (nth a (heap w) [])).

(** *** Events *)

Definition invoke (h : Handler) (r : Request) (hp : list (list Request))
  : list (list Request) :=
  match h with
  | collectFailedRequest a =>
      if String.eqb (resourceType r) "stylesheet"
         || String.eqb (resourceType r) "script"
      then push_at a r hp
      else hp
  end.

(** Emit one ["requestfailed"] event to the listeners subscribed at that
    moment, in subscription order. *)
Definition emit (ls : list (string * Handler)) (r : Request)
  (hp : list (list Request)) : list (list Request) :=
  fold_left
    (fun hp' l => if String.eqb (fst l) "requestfailed"
                  then invoke (snd l) r hp' else hp')
    ls hp.

Definition deliver (batch : list Request) (w : World) : World :=
  mkWorld (calls w) (floating w)
          (fold_left (fun hp r => emit (listeners w) r hp) batch (heap w))
          (listeners w) (schedule w).

(** The running function is suspended: the event loop delivers the next
    batch. *)
Definition suspend (w : World) : World :=
  match schedule w with
  | [] => w
  | b :: rest =>
      deliver b (mkWorld (calls w) (floating w) (heap w) (listeners w) rest)
  end.

(** Everything still scheduled is delivered, after the check returned. *)
Definition drain (w : World) : World :=
  fold_left (fun w' b => deliver b w') (schedule w)
    (mkWorld (calls w) (floating w) (heap w) (listeners w) []).

(** ** Async functions *)

Definition Async (A : Type) : Type := World -> World * Promise A.

Definition ret {A} (a : A) : Async A := fun w => (w, Resolved a).

Definition bind {A B} (m : Async A) (k : A -> Async B) : Async B :=
  fun w =>
    match m w with
    | (w', Resolved a) => k a w'
    | (w', Rejected e) => (w', Rejected e)
    | (w', Pending) => (w', Pending)
    end.

Notation "x <- m ;; k" := (bind m (fun x => k))
  (at level 61, m at next level, right associativity).
Notation "m ;;; k" := (bind m (fun _ => k))
  (at level 61, right associativity).

Definition throw {A} (e : Error) : Async A := fun w => (w, Rejected e).

Definition call (c : Call) : Async unit := fun w => (log c w, Resolved tt).

(** [await p] *)
Definition await {A} (p : Promise A) : Async A := fun w => (suspend w, p).

(** [expect(actual, message).<matcher>(v)], synchronous. *)
Definition expect (message : option string) (actual : Value) (m : Matcher)
  (v : Value) : Async unit :=
  call (expect_ message actual m v) ;;;
  if matches m actual v then ret tt
  else throw (AssertionFailed (mkAssertionError message m v actual)).

(** A complete run: the check, then the rest of the schedule. *)
Definition run {A} (m : Async A) (w : World) : World * Promise A :=
  let (w', p) := m w in (drain w', p).

(** ** The checks *)

Definition checkPageIsLoaded (args : CheckArgs.t) : Async unit :=
  let page := CheckArgs.page args in
  call (page_waitForLoadState domcontentloaded) ;;;
  await (waitForLoadState page domcontentloaded) ;;;
  call (page_waitForLoadState load) ;;;
  await (waitForLoadState page load) ;;;
  call page_evaluate_readyState ;;;
  readyState <- await (evaluate_readyState page) ;;
  expect None (VStr (readyStateString readyState)) toBe (VStr "complete").

Definition checkPageFound (args : CheckResponseArgs.t) : Async unit :=
  let response := CheckResponseArgs.response args in
  call response_ok ;;;
  expect (Some "Response is not OK"%string) (VBool (ok response))
         toBe (VBool true) ;;;
  call response_status ;;;
  expect (Some "Response status is 404"%string) (VNum (status response))
         not_toBe (VNum 404) ;;;
  call response_status ;;;
  expect (Some "Response status is not 200"%string) (VNum (status response))
         toBe (VNum 200).

(** *** Body markup *)

(** ECMAScript [WhiteSpace] and [LineTerminator] code points, all of them
    single code units: TAB, LF, VT, FF, CR, SP, NBSP, U+1680,
    U+2000..U+200A, U+2028, U+2029, U+202F, U+205F, U+3000, U+FEFF. *)
Definition isWhiteSpace (c : N) : bool :=
  ((9 <=? c) && (c <=? 13) || (c =? 32) || (c =? 160) || (c =? 5760)
   || (8192 <=? c) && (c <=? 8202) || (c =? 8232) || (c =? 8233)
   || (c =? 8239) || (c =? 8287) || (c =? 12288) || (c =? 65279))%N.

Fixpoint trimStart (s : JsString) : JsString :=
  match s with
  | [] => []
  | c :: s' => if isWhiteSpace c then trimStart s' else s
  end.

Definition trimEnd (s : JsString) : JsString := rev (trimStart (rev s)).

(** [String.prototype.trim] *)
Definition trim (s : JsString) : JsString := trimEnd (trimStart s).

(** The code units of an ASCII literal. *)
Definition jsString (s : string) : JsString :=
  map N_of_ascii (list_ascii_of_string s).

Definition checkBasicContentPresence (args : CheckArgs.t) : Async unit :=
  let page := CheckArgs.page args in
  call page_eval_body_innerHTML ;;;
  bodyContent <- await (eval_body_innerHTML page) ;;
  expect None (VNum (Z.of_nat (length (trim bodyContent))))
         toBeGreaterThan (VNum 0).

(** *** Transient visibility *)

(** A parameter with a default value. *)
Definition orDefault {A} (d : A) (o : option A) : A :=
  match o with
  | Some a => a
  | None => d
  end.

Definition stillVisibleMessage (selector : string) (maxVisibleTime : Z)
  : string :=
  "Element " ^^ selector ^^ " is still visible after "
  ^^ numberToString maxVisibleTime ^^ "ms".

(** The body of the [for ... of] loop, over the selectors left. *)
Fixpoint forSelectors (page : Page) (maxVisibleTime : Z)
  (selectors : list string) : Async unit :=
  match selectors with
  | [] => ret tt
  | selector :: rest =>
      call (page_locator selector) ;;;
      match locator page selector with
      | None => forSelectors page maxVisibleTime rest
      | Some l =>
          let message := stillVisibleMessage selector maxVisibleTime in
          call (expect_toPass message) ;;;
          (fun w => (drop (toPassTask message l hidden maxVisibleTime) w,
                     Resolved tt)) ;;;
          forSelectors page maxVisibleTime rest
      end
  end.

Definition checkTransientVisibility (args : CheckTransientVisibilityArgs.t)
  : Async unit :=
  let page := CheckTransientVisibilityArgs.page args in
  let selectors := CheckTransientVisibilityArgs.selectors args in
  let maxVisibleTime :=
    orDefault 0 (CheckTransientVisibilityArgs.maxVisibleTime args) in
  forSelectors page maxVisibleTime selectors.

(** What becomes of the dropped promises. *)

(** [async () => { locator.waitFor({ state, timeout }) }]: the arrow
    function starts the wait, neither awaits nor returns it, and resolves.
    The pair is the promise of the arrow function and the promise of the
    wait it left behind. *)
Definition toPassCallback (l : Locator) (s : WaitForState) (timeout : Z)
  : Promise unit * Promise unit :=
  (Resolved tt, waitFor l s timeout).

(** [toPass()] without options polls the callback until an attempt
    resolves and has no deadline of its own; every attempt of the callback
    above settles the same way. *)
Definition toPass (attempt : Promise unit) : Promise unit :=
  match attempt with
  | Resolved _ => Resolved tt
  | Rejected _ | Pending => Pending
  end.

Definition settles (t : Task) : Promise unit :=
  match t with
  | toPassTask _ l s timeout => toPass (fst (toPassCallback l s timeout))
  | droppedCall p => p
  end.

(** The wait a [toPass] callback started and left behind. *)
Definition leftBehind (t : Task) : list (Promise unit) :=
  match t with
  | toPassTask _ l s timeout => [snd (toPassCallback l s timeout)]
  | droppedCall _ => []
  end.

(** Calling an async function without [await] or [return].  The callee
    runs up to its first suspension; the callees here have none, so their
    whole body runs before the caller goes on. *)
Definition callDropped {A} (m : Async A) : Async unit :=
  fun w => let (w', p) := m w in (drop (droppedCall (forget p)) w', Resolved tt).

Definition DEFAULT_SPINNER_SELECTOR : list string :=
  [ ".spinner";
    ".loading-spinner";
    ".loading-indicator";
    ".ant-spin";
    ".fa-spinner";
    ".fas.fa-spinner";
    ".v-progress-circular";
    ".el-loading-spinner" ]%string.

Definition DEFAULT_PROGRESS_BAR_SELECTOR : list string :=
  [ ".progress-bar";
    "[role='progressbar']";
    ".mat-progress-bar";
    ".MuiCircularProgress-root" ]%string.

Definition DEFAULT_LOADING_SELECTORS : list string :=
  DEFAULT_SPINNER_SELECTOR ++ DEFAULT_PROGRESS_BAR_SELECTOR.

(** The component libraries the comments next to the two lists name, each
    with the classes given for it. *)
Definition NAMED_LIBRARY_CLASSES : list (string * string) :=
  [ ("Ant Design", ".ant-spin");
    ("Font Awesome", ".fa-spinner");
    ("Font Awesome", ".fas.fa-spinner");
    ("Vuetify", ".v-progress-circular");
    ("Element UI", ".el-loading-spinner");
    ("Angular Material", ".mat-progress-bar");
    ("Material UI", ".MuiCircularProgress-root") ]%string.

Definition checkNoCriticalLoadingIndicators
  (args : CheckLoadingIndicatorsArgs.t) : Async unit :=
  let page := CheckLoadingIndicatorsArgs.page args in
  let selectors :=
    orDefault DEFAULT_LOADING_SELECTORS
              (CheckLoadingIndicatorsArgs.selectors args) in
  let maxVisibleTime :=
    orDefault 0 (CheckLoadingIndicatorsArgs.maxVisibleTime args) in
  callDropped
    (checkTransientVisibility
       (CheckTransientVisibilityArgs.mk page selectors (Some maxVisibleTime))).

(** *** Network failures *)

(** [const failedRequests = []] *)
Definition newArray : Async nat :=
  fun w => let (w', a) := alloc w in (w', Resolved a).

(** [page.on(event, handler)]: the page is an event emitter; subscribing
    appends the listener and emits nothing. *)
Definition on (event : string) (h : Handler) : Async unit :=
  fun w =>
    (mkWorld (calls w ++ [page_on event]) (floating w) (heap w)
             (listeners w ++ [(event, h)]) (schedule w),
     Resolved tt).

(** [failedRequests.length] *)
Definition lengthOf (a : nat) : Async Z :=
  fun w => (w, Resolved (array_length a w)).

Definition checkNoUnhandledNetworkFailures (args : CheckArgs.t) : Async unit :=
  let page := CheckArgs.page args in
  call (page_route "**/*.{css,js}") ;;;
  await (route page "**/*.{css,js}") ;;;
  failedRequests <- newArray ;;
  on "requestfailed" (collectFailedRequest failedRequests) ;;;
  n <- lengthOf failedRequests ;;
  expect None (VNum n) toBe (VNum 0).

(** ** Vocabulary of the statements *)

(** Whether a promise resolved. *)
Definition succeeded {A} (p : Promise A) : bool :=
  match p with
  | Resolved _ => true
  | _ => false
  end.

(** The failures of the three assertions of [checkPageFound]. *)
Definition okClause : AssertionError :=
  mkAssertionError (Some "Response is not OK"%string) toBe
                   (VBool true) (VBool false).

Definition not404Clause : AssertionError :=
  mkAssertionError (Some "Response status is 404"%string) not_toBe
                   (VNum 404) (VNum 404).

Definition is200Clause (st : Z) : AssertionError :=
  mkAssertionError (Some "Response status is not 200"%string) toBe
                   (VNum 200) (VNum st).

(** The framework calls of [checkPageFound] when all three assertions are
    reached. *)
Definition pageFoundCalls (r : Response) : list Call :=
  [ response_ok;
    expect_ (Some "Response is not OK"%string) (VBool (ok r)) toBe (VBool true);
    response_status;
    expect_ (Some "Response status is 404"%string) (VNum (status r))
            not_toBe (VNum 404);
    response_status;
    expect_ (Some "Response status is not 200"%string) (VNum (status r))
            toBe (VNum 200) ].

(** The ok and status values of the matrix of the specification. *)
Definition pageFoundMatrix : list (bool * Z) :=
  [ (true, 200); (true, 404); (true, 500);
    (false, 200); (false, 404); (false, 500) ].

(** The framework calls of [checkPageIsLoaded] when the ready state [rs]
    is read and asserted on. *)
Definition pageIsLoadedCalls (rs : DocumentReadyState) : list Call :=
  [ page_waitForLoadState domcontentloaded;
    page_waitForLoadState load;
    page_evaluate_readyState;
    expect_ None (VStr (readyStateString rs)) toBe (VStr "complete") ].

(** The failure of the assertion of [checkPageIsLoaded]. *)
Definition readyStateMismatch (rs : DocumentReadyState) : AssertionError :=
  mkAssertionError None toBe (VStr "complete") (VStr (readyStateString rs)).

(** The failure of the assertion of [checkBasicContentPresence]. *)
Definition emptyBody : AssertionError :=
  mkAssertionError None toBeGreaterThan (VNum 0) (VNum 0).

(** The page [p] with its body markup replaced. *)
Definition withBody (p : Page) (body : JsString) : Page :=
  mkPage (waitForLoadState p) (evaluate_readyState p) (Resolved body)
         (locator p) (route p).

(** The framework calls of the loop, and the promises it drops: for each
    selector the locator call, and for a selector with a locator also the
    [toPass] assertion, whose promise is dropped. *)
Fixpoint selectorCalls (page : Page) (t : Z) (selectors : list string)
  : list Call :=
  match selectors with
  | [] => []
  | s :: rest =>
      page_locator s
      :: match locator page s with
         | None => selectorCalls page t rest
         | Some _ =>
             expect_toPass (stillVisibleMessage s t)
             :: selectorCalls page t rest
         end
  end.

Fixpoint selectorTasks (page : Page) (t : Z) (selectors : list string)
  : list Task :=
  match selectors with
  | [] => []
  | s :: rest =>
      match locator page s with
      | None => selectorTasks page t rest
      | Some l =>
          toPassTask (stillVisibleMessage s t) l hidden t
          :: selectorTasks page t rest
      end
  end.

(** The glob of the pass-through route. *)
Definition ROUTE_GLOB : string := "**/*.{css,js}".

(** ** Concrete inputs *)

(** A page that has finished loading, with a body, no locators and a
    [page.route] that resolves. *)
Definition loadedPage : Page :=
  mkPage (fun _ => Resolved tt) (Resolved complete)
         (Resolved (jsString "<div>Hello</div>"))
         (fun _ => None) (fun _ => Resolved tt).

(** A page whose load states are never reached, with a blank body and a
    [page.route] that rejects. *)
Definition stalledPage : Page :=
  mkPage (fun _ => Pending) (Resolved interactive) (Resolved (jsString "   "))
         (fun _ => None) (fun _ => Rejected (FrameworkError "page closed")).

(** A page whose waits resolve while the document is still
    [interactive]. *)
Definition interactivePage : Page :=
  mkPage (fun _ => Resolved tt) (Resolved interactive) (Resolved [])
         (fun _ => None) (fun _ => Resolved tt).

(** A spinner that never goes away: waiting for it to be hidden times out,
    or never settles when the timeout is 0, which disables it. *)
Definition stuckSpinner : Locator :=
  mkLocator (fun s timeout =>
    match s with
    | hidden | detached =>
        if timeout =? 0 then Pending
        else Rejected (FrameworkError
               ("locator.waitFor: Timeout " ^^ numberToString timeout
                ^^ "ms exceeded."))
    | visible | attached => Resolved tt
    end).

(** A page on which [.loading-spinner] stays visible and no other
    selector has a locator. *)
Definition spinnerPage : Page :=
  mkPage (fun _ => Resolved tt) (Resolved complete)
         (Resolved (jsString "<div class='loading-spinner'></div>"))
         (fun selector =>
            if String.eqb selector ".loading-spinner" then Some stuckSpinner
            else None)
         (fun _ => Resolved tt).

(** Two failing requests. *)
Definition scriptFailure : Request :=
  mkRequest "script" "https://site.example/app.js".

Definition imageFailure : Request :=
  mkRequest "image" "https://site.example/logo.png".

(** ** Vocabulary of the further properties *)

(** The selectors of the [page.locator] calls of a trace, in order. *)
Fixpoint locatorCalls (cs : list Call) : list string :=
  match cs with
  | [] => []
  | page_locator s :: rest => s :: locatorCalls rest
  | _ :: rest => locatorCalls rest
  end.

(** The assertions made in a trace, [toPass] included. *)
Definition isAssertion (c : Call) : bool :=
  match c with
  | expect_ _ _ _ _ | expect_toPass _ => true
  | _ => false
  end.

Definition hasLocator (page : Page) (selector : string) : bool :=
  match locator page selector with
  | Some _ => true
  | None => false
  end.

(** The message of a dropped [toPass] assertion. *)
Definition taskMessage (t : Task) : option string :=
  match t with
  | toPassTask message _ _ _ => Some message
  | droppedCall _ => None
  end.

(** The test of the request-failed listener. *)
Definition isStyleOrScript (r : Request) : bool :=
  String.eqb (resourceType r) "stylesheet"
  || String.eqb (resourceType r) "script".

Definition handlerAddress (h : Handler) : nat :=
  match h with
  | collectFailedRequest a => a
  end.

(** Every listener writes to an array that exists. *)
Definition wfWorld (w : World) : bool :=
  forallb (fun l => handlerAddress (snd l) <? length (heap w))%nat
          (listeners w).

(** [n] invocations of [checkNoUnhandledNetworkFailures] on the same page,
    one after the other. *)
Fixpoint repeatNetworkCheck (n : nat) (args : CheckArgs.t) (w : World)
  : World :=
  match n with
  | O => w
  | S n' =>
      repeatNetworkCheck n' args (fst (checkNoUnhandledNetworkFailures args w))
  end.

(** A page whose [load] state is never reached in time. *)
Definition timedOutPage : Page :=
  mkPage (fun s => match s with
                   | load =>
                       Rejected (FrameworkError
                         "page.waitForLoadState: Timeout 30000ms exceeded.")
                   | _ => Resolved tt
                   end)
         (Resolved loading) (Resolved [])
         (fun _ => None) (fun _ => Resolved tt).

(** A page without a body element: [page.$eval] rejects. *)
Definition bodylessPage : Page :=
  mkPage (fun _ => Resolved tt) (Resolved complete)
         (Rejected (FrameworkError
            "page.$eval: Failed to find element matching selector body"))
         (fun _ => None) (fun _ => Resolved tt).




(** * Properties *)

(** ** Helper facts *)

Lemma prefix_app (s t : string) : String.prefix s (s ^^ t) = true.
Proof.
  induction s as [|c s IH]; simpl.
  - destruct t; reflexivity.
  - rewrite IH. destruct (ascii_dec c c); congruence.
Qed.

Lemma includes_prefix (s t : string) :
  String.prefix s t = true -> includes s t = true.
Proof. intros H. destruct t; cbn [includes]; rewrite H; reflexivity. Qed.

Lemma includes_app (pre s post : string) :
  includes s (pre ^^ s ^^ post) = true.
Proof.
  induction pre as [|c pre IH].
  - change (includes s (s ^^ post) = true).
    apply includes_prefix, prefix_app.
  - change (includes s (String c (pre ^^ s ^^ post)) = true).
    cbn [includes]. rewrite IH. apply orb_true_r.
Qed.

Lemma prefix_split (s t : string) :
  String.prefix s t = true -> exists post, t = s ^^ post.
Proof.
  revert t. induction s as [|c s IH]; intros t H.
  - exists t. reflexivity.
  - destruct t as [|d t]; cbn [String.prefix] in H; [discriminate|].
    destruct (ascii_dec c d) as [->|]; [|discriminate].
    destruct (IH t H) as [post ->]. exists post. reflexivity.
Qed.

(** [includes] is the substring test. *)
Lemma includes_spec (s t : string) :
  includes s t = true <-> exists pre post, t = pre ^^ s ^^ post.
Proof.
  split.
  - induction t as [|c t IH]; cbn [includes]; intros H;
      apply orb_true_iff in H; destruct H as [H|H].
    + destruct (prefix_split _ _ H) as [post E].
      exists EmptyString, post. exact E.
    + discriminate.
    + destruct (prefix_split _ _ H) as [post E].
      exists EmptyString, post. exact E.
    + destruct (IH H) as (pre & post & ->).
      exists (String c pre), post. reflexivity.
  - intros (pre & post & ->). apply includes_app.
Qed.

Lemma calls_log c w : calls (log c w) = calls w ++ [c].
Proof. reflexivity. Qed.

Lemma suspend_calls w : calls (suspend w) = calls w.
Proof. unfold suspend. destruct (schedule w); reflexivity. Qed.

(** ** checkPageFound *)

Lemma checkPageFound_run (args : CheckResponseArgs.t) (w : World) :
  let r := CheckResponseArgs.response args in
  checkPageFound args w =
    if negb (ok r) then
      (mkWorld (calls w ++ firstn 2 (pageFoundCalls r)) (floating w) (heap w)
               (listeners w) (schedule w),
       Rejected (AssertionFailed okClause))
    else if status r =? 404 then
      (mkWorld (calls w ++ firstn 4 (pageFoundCalls r)) (floating w) (heap w)
               (listeners w) (schedule w),
       Rejected (AssertionFailed not404Clause))
    else
      (mkWorld (calls w ++ pageFoundCalls r) (floating w) (heap w)
               (listeners w) (schedule w),
       if status r =? 200 then Resolved tt
       else Rejected (AssertionFailed (is200Clause (status r)))).
Proof.
  destruct args as [p [o st stt u]]; destruct w as [cs fl hp ls sc].
  unfold checkPageFound, expect, bind, call, log, throw, ret.
  cbn -[Z.eqb firstn]. destruct o; cbn -[Z.eqb firstn].
  - destruct (Z.eqb_spec st 404) as [->|N4]; cbn -[Z.eqb].
    + rewrite <- !app_assoc. reflexivity.
    + destruct (Z.eqb_spec st 200) as [->|N2]; cbn; rewrite <- !app_assoc;
        reflexivity.
  - cbn. rewrite <- !app_assoc. reflexivity.
Qed.

(** The three clause messages appear in the failure texts. *)
Lemma clause_messages (st : Z) :
  includes "Response is not OK"
           (errorMessage (AssertionFailed okClause)) = true
  /\ includes "Response status is 404"
              (errorMessage (AssertionFailed not404Clause)) = true
  /\ includes "Response status is not 200"
              (errorMessage (AssertionFailed (is200Clause st))) = true.
Proof.
  split; [reflexivity | split; [reflexivity |]].
  apply includes_prefix. reflexivity.
Qed.

(** C1.  [checkPageFound] succeeds exactly when ok is true, the status is
    not 404 and the status is 200.  Its three assertions run in the order
    ok, not-404, equals-200: a false ok fails with the ok clause after two
    framework calls (the status is never read), an ok 404 fails with the
    not-404 clause after four, any other ok status but 200 fails with the
    equals-200 clause after all six, and each failure text carries the
    message of its clause.  On the matrix of the specification the check
    fails exactly where the conjunction is false. *)
Theorem checkPageFound_spec (args : CheckResponseArgs.t) (w : World) :
  let r := CheckResponseArgs.response args in
  let out := checkPageFound args w in
  let reached k := calls (fst out) = calls w ++ firstn k (pageFoundCalls r) in
  (snd out = Resolved tt <->
     ok r = true /\ status r <> 404 /\ status r = 200)
  /\ (ok r = false <->
        snd out = Rejected (AssertionFailed okClause) /\ reached 2%nat)
  /\ (ok r = true /\ status r = 404 <->
        snd out = Rejected (AssertionFailed not404Clause) /\ reached 4%nat)
  /\ (ok r = true /\ status r <> 404 /\ status r <> 200 <->
        snd out = Rejected (AssertionFailed (is200Clause (status r)))
        /\ reached 6%nat)
  /\ (ok r = true /\ status r = 200 <->
        snd out = Resolved tt /\ reached 6%nat)
  /\ (includes "Response is not OK"
               (errorMessage (AssertionFailed okClause)) = true
      /\ includes "Response status is 404"
                  (errorMessage (AssertionFailed not404Clause)) = true
      /\ includes "Response status is not 200"
                  (errorMessage (AssertionFailed (is200Clause (status r))))
         = true)
  /\ forallb
       (fun c : bool * Z =>
          Bool.eqb
            (succeeded
               (snd (checkPageFound
                       (CheckResponseArgs.mk
                          (CheckResponseArgs.page args)
                          (mkResponse (fst c) (snd c) (statusText r)
                                      (responseUrl r)))
                       w)))
            (fst c && negb (snd c =? 404) && (snd c =? 200)))
       pageFoundMatrix = true.
Proof.
  intros r out reached.
  assert (Hmatrix : forall o st,
    succeeded
      (snd (checkPageFound
              (CheckResponseArgs.mk (CheckResponseArgs.page args)
                 (mkResponse o st (statusText r) (responseUrl r))) w))
    = o && negb (st =? 404) && (st =? 200)).
  { intros o st. rewrite checkPageFound_run.
    cbn [CheckResponseArgs.response ok status].
    destruct o; cbn [negb andb]; [|reflexivity].
    destruct (Z.eqb_spec st 404) as [->|N4]; [reflexivity|].
    cbn [snd negb andb]. destruct (st =? 200); reflexivity. }
  subst out reached; cbv beta. rewrite (checkPageFound_run args w).
  fold r. destruct (clause_messages (status r)) as (Hm1 & Hm2 & Hm3).
  assert (Hall : forallb
       (fun c : bool * Z =>
          Bool.eqb
            (succeeded
               (snd (checkPageFound
                       (CheckResponseArgs.mk
                          (CheckResponseArgs.page args)
                          (mkResponse (fst c) (snd c) (statusText r)
                                      (responseUrl r)))
                       w)))
            (fst c && negb (snd c =? 404) && (snd c =? 200)))
       pageFoundMatrix = true).
  { cbn [pageFoundMatrix forallb fst snd]. rewrite !Hmatrix. reflexivity. }
  clear Hmatrix. revert Hall. generalize pageFoundMatrix. intros mx Hall.
  destruct (ok r); cbn [negb];
    [ destruct (Z.eqb_spec (status r) 404) as [E4|N4];
      [ | destruct (Z.eqb_spec (status r) 200) as [E2|N2] ] | ];
    cbn [fst snd calls];
    repeat split; intros;
    repeat match goal with H : _ /\ _ |- _ => destruct H end;
    try assumption; try discriminate; try lia; try reflexivity.
Qed.

(** C9.  The outcome of [checkPageFound] is a function of the response's
    ok and status alone: two invocations whose responses agree on both,
    whatever their page handles and the other fields of the responses,
    leave the same world and settle the same way when started in the same
    world, and settle the same way (success, or the same assertion failure
    with the same text) when started in any two worlds. *)
Theorem checkPageFound_page_independent
  (a1 a2 : CheckResponseArgs.t) (w1 w2 : World) :
  ok (CheckResponseArgs.response a1) = ok (CheckResponseArgs.response a2) ->
  status (CheckResponseArgs.response a1)
  = status (CheckResponseArgs.response a2) ->
  checkPageFound a1 w1 = checkPageFound a2 w1
  /\ snd (checkPageFound a1 w1) = snd (checkPageFound a2 w2).
Proof.
  intros Hok Hst. rewrite !checkPageFound_run. cbv zeta.
  unfold pageFoundCalls. rewrite Hok, Hst. split; [reflexivity|].
  destruct (ok (CheckResponseArgs.response a2)); cbn [negb];
    [destruct (status (CheckResponseArgs.response a2) =? 404)|]; reflexivity.
Qed.

Lemma checkPageFound_page_independent_witness :
  checkPageFound
    (CheckResponseArgs.mk loadedPage
       (mkResponse true 404 "Not Found" "https://a.example/"))
    (emptyWorld [])
  = checkPageFound
      (CheckResponseArgs.mk stalledPage
         (mkResponse true 404 "Gone" "https://b.example/"))
      (emptyWorld [])
  /\ snd (checkPageFound
            (CheckResponseArgs.mk loadedPage
               (mkResponse true 404 "Not Found" "https://a.example/"))
            (emptyWorld []))
     = snd (checkPageFound
              (CheckResponseArgs.mk stalledPage
                 (mkResponse true 404 "Gone" "https://b.example/"))
              (emptyWorld [[mkRequest "script" "https://b.example/app.js"]])).
Proof.
  apply checkPageFound_page_independent; reflexivity.
Defined.

(** ** checkPageIsLoaded *)

(** A wait that does not resolve settles the check, and nothing after it
    is called. *)
Lemma checkPageIsLoaded_first_wait (args : CheckArgs.t) (w : World) :
  waitForLoadState (CheckArgs.page args) domcontentloaded <> Resolved tt ->
  snd (checkPageIsLoaded args w)
  = waitForLoadState (CheckArgs.page args) domcontentloaded
  /\ calls (fst (checkPageIsLoaded args w))
     = calls w ++ firstn 1 (pageIsLoadedCalls complete).
Proof.
  intros H. unfold checkPageIsLoaded, bind, call, await.
  destruct (waitForLoadState (CheckArgs.page args) domcontentloaded)
    as [[]| |]; [congruence| |];
    cbn [fst snd]; rewrite suspend_calls; split; reflexivity.
Qed.

Lemma checkPageIsLoaded_second_wait (args : CheckArgs.t) (w : World) :
  waitForLoadState (CheckArgs.page args) domcontentloaded = Resolved tt ->
  waitForLoadState (CheckArgs.page args) load <> Resolved tt ->
  snd (checkPageIsLoaded args w) = waitForLoadState (CheckArgs.page args) load
  /\ calls (fst (checkPageIsLoaded args w))
     = calls w ++ firstn 2 (pageIsLoadedCalls complete).
Proof.
  intros H1 H2. unfold checkPageIsLoaded, bind, call, await. rewrite H1.
  destruct (waitForLoadState (CheckArgs.page args) load)
    as [[]| |]; [congruence| |];
    cbn [fst snd]; rewrite suspend_calls, calls_log, suspend_calls, calls_log,
      <- app_assoc; split; reflexivity.
Qed.

(** C4.  [checkPageIsLoaded] first waits for the load state
    [domcontentloaded], then for [load], then reads the ready state and
    asserts that it is ["complete"].  It does wait: while the first wait
    has not resolved the check has settled as that wait does (pending or
    rejected) after the one call; with the first wait resolved and the
    second not, it has settled as the second wait does after the two
    calls; with both resolved and the read of the ready state not, it has
    settled as that read does after the three calls, without asserting.
    Once both waits have resolved and the ready state has been read, the
    four calls are made in this order and the check succeeds exactly when
    the state is ["complete"]; for every other state it fails with a
    [toBe] assertion whose text contains the quoted expected value
    ["complete"], the quoted observed value, and the two on an
    [Expected:] line followed by a [Received:] line. *)
Theorem checkPageIsLoaded_spec
  (args : CheckArgs.t) (w : World) (rs : DocumentReadyState) :
  let page := CheckArgs.page args in
  let out := checkPageIsLoaded args w in
  let text := errorMessage (AssertionFailed (readyStateMismatch rs)) in
  (waitForLoadState page domcontentloaded <> Resolved tt ->
     snd out = waitForLoadState page domcontentloaded
     /\ calls (fst out) = calls w ++ [page_waitForLoadState domcontentloaded])
  /\ (waitForLoadState page domcontentloaded = Resolved tt ->
      waitForLoadState page load <> Resolved tt ->
      snd out = waitForLoadState page load
      /\ calls (fst out)
         = calls w ++ [page_waitForLoadState domcontentloaded;
                       page_waitForLoadState load])
  /\ (waitForLoadState page domcontentloaded = Resolved tt ->
      waitForLoadState page load = Resolved tt ->
      (forall rs', evaluate_readyState page <> Resolved rs') ->
      snd out = forget (evaluate_readyState page)
      /\ calls (fst out)
         = calls w ++ [page_waitForLoadState domcontentloaded;
                       page_waitForLoadState load;
                       page_evaluate_readyState])
  /\ (waitForLoadState page domcontentloaded = Resolved tt ->
      waitForLoadState page load = Resolved tt ->
      evaluate_readyState page = Resolved rs ->
      calls (fst out) = calls w ++ pageIsLoadedCalls rs
      /\ (rs = complete <-> snd out = Resolved tt)
      /\ (rs <> complete <->
            snd out = Rejected (AssertionFailed (readyStateMismatch rs)))
      /\ includes (dquote ^^ "complete" ^^ dquote) text = true
      /\ includes (dquote ^^ readyStateString rs ^^ dquote) text = true
      /\ includes ("Expected: " ^^ dquote ^^ "complete" ^^ dquote ^^ newline
                   ^^ "Received: " ^^ dquote ^^ readyStateString rs ^^ dquote)
                  text = true).
Proof.
  intros page out text. subst page out text.
  split; [|split; [|split]].
  - intros H1. apply (checkPageIsLoaded_first_wait args w H1).
  - intros H1 H2. apply (checkPageIsLoaded_second_wait args w H1 H2).
  - intros H1 H2 H3.
    unfold checkPageIsLoaded, bind, call, await. rewrite H1, H2.
    destruct (evaluate_readyState (CheckArgs.page args)) as [rs'| |];
      [exfalso; exact (H3 rs' eq_refl) | |];
      cbn [fst snd forget];
      rewrite suspend_calls, calls_log, suspend_calls, calls_log,
        suspend_calls, calls_log, <- !app_assoc; split; reflexivity.
  - intros H1 H2 H3.
    assert (Hm : matches toBe (VStr (readyStateString rs)) (VStr "complete")
                 = match rs with complete => true | _ => false end)
      by (destruct rs; reflexivity).
    unfold checkPageIsLoaded, bind, call, await, expect, bind, call.
    rewrite H1, H2, H3, Hm. cbn [fst snd].
    split.
    + destruct rs; unfold ret, throw; cbn [fst snd];
        rewrite calls_log, suspend_calls, calls_log, suspend_calls, calls_log,
          suspend_calls, calls_log, <- !app_assoc; reflexivity.
    + destruct rs; unfold ret, throw; cbn [fst snd];
        repeat split; intros; try discriminate; try congruence;
        try reflexivity.
Qed.

Lemma checkPageIsLoaded_spec_witness :
  (snd (checkPageIsLoaded (CheckArgs.mk stalledPage) (emptyWorld []))
   = Pending
   /\ calls (fst (checkPageIsLoaded (CheckArgs.mk stalledPage)
                                     (emptyWorld [])))
      = [page_waitForLoadState domcontentloaded])
  /\ (snd (checkPageIsLoaded (CheckArgs.mk timedOutPage) (emptyWorld []))
      = Rejected (FrameworkError
                    "page.waitForLoadState: Timeout 30000ms exceeded.")
      /\ calls (fst (checkPageIsLoaded (CheckArgs.mk timedOutPage)
                                        (emptyWorld [])))
         = [page_waitForLoadState domcontentloaded;
            page_waitForLoadState load])
  /\ snd (checkPageIsLoaded (CheckArgs.mk interactivePage) (emptyWorld []))
     = Rejected (AssertionFailed (readyStateMismatch interactive))
  /\ includes (dquote ^^ "interactive" ^^ dquote)
              (errorMessage (AssertionFailed (readyStateMismatch interactive)))
     = true.
Proof.
  split; [|split].
  - destruct (checkPageIsLoaded_spec (CheckArgs.mk stalledPage)
                (emptyWorld []) complete) as (Hfirst & _).
    apply Hfirst. discriminate.
  - destruct (checkPageIsLoaded_spec (CheckArgs.mk timedOutPage)
                (emptyWorld []) complete) as (_ & Hsecond & _).
    apply Hsecond; [reflexivity | discriminate].
  - destruct (checkPageIsLoaded_spec (CheckArgs.mk interactivePage)
                (emptyWorld []) interactive) as (_ & _ & _ & Hread).
    destruct (Hread eq_refl eq_refl eq_refl)
      as (_ & _ & Hfail & _ & Hobserved & _).
    split; [apply Hfail; discriminate | exact Hobserved].
Defined.

(** ** checkBasicContentPresence *)

Lemma trimStart_nil (s : JsString) :
  trimStart s = [] <-> forallb isWhiteSpace s = true.
Proof.
  induction s as [|c s IH]; cbn [trimStart forallb].
  - tauto.
  - destruct (isWhiteSpace c); cbn [andb]; [exact IH|].
    split; discriminate.
Qed.

Lemma forallb_trimStart (s : JsString) :
  forallb isWhiteSpace (trimStart s) = forallb isWhiteSpace s.
Proof.
  induction s as [|c s IH]; cbn [trimStart forallb]; [reflexivity|].
  destruct (isWhiteSpace c) eqn:E; cbn [andb forallb]; [exact IH|].
  rewrite E. reflexivity.
Qed.

Lemma forallb_rev_eq {A} (f : A -> bool) (l : list A) :
  forallb f (rev l) = forallb f l.
Proof.
  induction l as [|a l IH]; [reflexivity|].
  cbn [rev forallb]. rewrite forallb_app, IH. cbn [forallb].
  rewrite andb_true_r. apply andb_comm.
Qed.

Lemma trimEnd_nil (s : JsString) :
  trimEnd s = [] <-> forallb isWhiteSpace s = true.
Proof.
  unfold trimEnd. rewrite <- (forallb_rev_eq isWhiteSpace s), <- trimStart_nil.
  split; intros H.
  - apply (f_equal (@rev N)) in H. rewrite rev_involutive in H. exact H.
  - rewrite H. reflexivity.
Qed.

(** Trimming leaves nothing exactly when every code unit is white space. *)
Lemma trim_nil (s : JsString) :
  trim s = [] <-> forallb isWhiteSpace s = true.
Proof.
  unfold trim. rewrite trimEnd_nil, forallb_trimStart. tauto.
Qed.

Lemma trim_length_pos (s : JsString) :
  (0 < length (trim s))%nat <-> forallb isWhiteSpace s = false.
Proof.
  pose proof (trim_nil s) as H.
  destruct (trim s) as [|c t]; cbn [length].
  - split; [lia|]. intros E. rewrite (proj1 H eq_refl) in E. discriminate.
  - split; [|lia]. intros _.
    destruct (forallb isWhiteSpace s); [|reflexivity].
    destruct H as [_ H]. discriminate (H eq_refl).
Qed.

Lemma checkBasicContentPresence_run (args : CheckArgs.t) (w : World)
  (body : JsString) :
  eval_body_innerHTML (CheckArgs.page args) = Resolved body ->
  snd (checkBasicContentPresence args w)
  = if forallb isWhiteSpace body then Rejected (AssertionFailed emptyBody)
    else Resolved tt.
Proof.
  intros H. unfold checkBasicContentPresence, bind, call, await, expect,
    bind, call. rewrite H. cbn [fst snd matches].
  pose proof (trim_nil body) as Hn. pose proof (trim_length_pos body) as Hp.
  destruct (forallb isWhiteSpace body).
  - rewrite (proj2 Hn eq_refl). reflexivity.
  - destruct (Z.ltb_spec 0 (Z.of_nat (length (trim body)))) as [_|Hle];
      [reflexivity|].
    destruct Hp as [_ Hp]. specialize (Hp eq_refl). lia.
Qed.

(** C5.  Once the body markup has been read, [checkBasicContentPresence]
    succeeds exactly when the trimmed markup has a length greater than 0,
    which is exactly when some code unit of the markup is not white space;
    otherwise it fails with the [toBeGreaterThan] assertion on the length
    0.  A body of three spaces fails and the body [<div>Hello</div>]
    passes. *)
Theorem checkBasicContentPresence_spec (args : CheckArgs.t) (w : World)
  (body : JsString) :
  eval_body_innerHTML (CheckArgs.page args) = Resolved body ->
  let out := checkBasicContentPresence args w in
  let page := CheckArgs.page args in
  (snd out = Resolved tt <-> (0 < length (trim body))%nat)
  /\ (snd out = Resolved tt <->
        existsb (fun c => negb (isWhiteSpace c)) body = true)
  /\ (snd out = Rejected (AssertionFailed emptyBody) <->
        length (trim body) = 0%nat)
  /\ snd (checkBasicContentPresence
            (CheckArgs.mk (withBody page (jsString "   "))) w)
     = Rejected (AssertionFailed emptyBody)
  /\ snd (checkBasicContentPresence
            (CheckArgs.mk (withBody page (jsString "<div>Hello</div>"))) w)
     = Resolved tt.
Proof.
  intros H out page. subst out.
  rewrite (checkBasicContentPresence_run args w body H).
  rewrite trim_length_pos.
  assert (Hex : existsb (fun c => negb (isWhiteSpace c)) body
                = negb (forallb isWhiteSpace body)).
  { clear H. induction body as [|c b IH]; [reflexivity|].
    cbn [existsb forallb]. rewrite IH, negb_andb. reflexivity. }
  rewrite Hex.
  assert (Hz : length (trim body) = 0%nat <-> forallb isWhiteSpace body = true).
  { rewrite <- trim_nil. destruct (trim body); cbn [length];
      split; intros; (reflexivity || discriminate). }
  rewrite Hz.
  split; [|split; [|split; [|split]]].
  1-3: destruct (forallb isWhiteSpace body); cbn [negb];
    split; intros; (reflexivity || discriminate).
  - rewrite (checkBasicContentPresence_run
               (CheckArgs.mk (withBody page (jsString "   "))) w
               (jsString "   ") eq_refl).
    reflexivity.
  - rewrite (checkBasicContentPresence_run
               (CheckArgs.mk (withBody page (jsString "<div>Hello</div>"))) w
               (jsString "<div>Hello</div>") eq_refl).
    reflexivity.
Qed.

Lemma checkBasicContentPresence_spec_witness :
  snd (checkBasicContentPresence (CheckArgs.mk stalledPage) (emptyWorld []))
  = Rejected (AssertionFailed emptyBody)
  /\ snd (checkBasicContentPresence (CheckArgs.mk loadedPage) (emptyWorld []))
     = Resolved tt.
Proof.
  split.
  - destruct (checkBasicContentPresence_spec (CheckArgs.mk stalledPage)
                (emptyWorld []) (jsString "   ") eq_refl)
      as (_ & _ & Hfail & _).
    apply Hfail. reflexivity.
  - destruct (checkBasicContentPresence_spec (CheckArgs.mk loadedPage)
                (emptyWorld []) (jsString "<div>Hello</div>") eq_refl)
      as (Hpass & _).
    apply Hpass. vm_compute. lia.
Defined.

(** ** checkTransientVisibility *)

Lemma forSelectors_run (page : Page) (t : Z) (selectors : list string) :
  forall w,
    forSelectors page t selectors w =
      (mkWorld (calls w ++ selectorCalls page t selectors)
               (floating w ++ selectorTasks page t selectors)
               (heap w) (listeners w) (schedule w),
       Resolved tt).
Proof.
  induction selectors as [|s rest IH]; intros w.
  - destruct w. cbn. rewrite !app_nil_r. reflexivity.
  - cbn [forSelectors selectorCalls selectorTasks].
    unfold bind, call. destruct (locator page s) as [l|].
    + cbn [fst snd]. rewrite IH. unfold drop, log.
      cbn [calls floating heap listeners schedule].
      rewrite <- !app_assoc. reflexivity.
    + rewrite IH. unfold log. cbn [calls floating heap listeners schedule].
      rewrite <- !app_assoc. reflexivity.
Qed.

Lemma checkTransientVisibility_run (args : CheckTransientVisibilityArgs.t)
  (w : World) :
  let page := CheckTransientVisibilityArgs.page args in
  let t := orDefault 0 (CheckTransientVisibilityArgs.maxVisibleTime args) in
  let selectors := CheckTransientVisibilityArgs.selectors args in
  checkTransientVisibility args w =
    (mkWorld (calls w ++ selectorCalls page t selectors)
             (floating w ++ selectorTasks page t selectors)
             (heap w) (listeners w) (schedule w),
     Resolved tt).
Proof. apply forSelectors_run. Qed.

Lemma selectorTasks_app (page : Page) (t : Z) (xs ys : list string) :
  selectorTasks page t (xs ++ ys)
  = selectorTasks page t xs ++ selectorTasks page t ys.
Proof.
  induction xs as [|x xs IH]; [reflexivity|].
  cbn [app selectorTasks]. destruct (locator page x); rewrite IH; reflexivity.
Qed.

Lemma selectorCalls_app (page : Page) (t : Z) (xs ys : list string) :
  selectorCalls page t (xs ++ ys)
  = selectorCalls page t xs ++ selectorCalls page t ys.
Proof.
  induction xs as [|x xs IH]; [reflexivity|].
  cbn [app selectorCalls]. destruct (locator page x); rewrite IH; reflexivity.
Qed.

(** C2, on the code.  With [.loading-spinner] visible for good and a
    max-visible-time of 3000 ms, [checkTransientVisibility] succeeds.  The
    [toPass] assertion carrying the message that names the selector and
    the duration is created and its promise dropped; it passes as well,
    because its callback drops the wait in turn; the only promise that
    rejects is that wait, with the framework's timeout error. *)
Theorem checkTransientVisibility_still_visible :
  let args := CheckTransientVisibilityArgs.mk
                spinnerPage [".loading-spinner"%string] (Some 3000) in
  let out := run (checkTransientVisibility args) (emptyWorld []) in
  let message := "Element .loading-spinner is still visible after 3000ms"%string in
  snd out = Resolved tt
  /\ floating (fst out) = [toPassTask message stuckSpinner hidden 3000]
  /\ map settles (floating (fst out)) = [Resolved tt]
  /\ concat (map leftBehind (floating (fst out)))
     = [Rejected (FrameworkError
                    "locator.waitFor: Timeout 3000ms exceeded.")].
Proof. repeat split. Qed.




(** Whatever the page, the selectors and the duration, the promise of
    [checkTransientVisibility] resolves: nothing in the loop awaits or
    throws. *)
Lemma checkTransientVisibility_resolves
  (args : CheckTransientVisibilityArgs.t) (w : World) :
  snd (checkTransientVisibility args w) = Resolved tt.
Proof. rewrite checkTransientVisibility_run. reflexivity. Qed.

(** Every dropped [toPass] assertion passes, whatever its locator does. *)
Lemma selectorTasks_settle (page : Page) (t : Z) (selectors : list string) :
  Forall (fun task => settles task = Resolved tt)
         (selectorTasks page t selectors).
Proof.
  induction selectors as [|s rest IH]; cbn [selectorTasks]; [constructor|].
  destruct (locator page s); [constructor; [reflexivity|]|]; exact IH.
Qed.

(** ** checkNoCriticalLoadingIndicators *)

(** C7.  Called with the page alone, [checkNoCriticalLoadingIndicators]
    settles as [checkTransientVisibility] does on the same page with
    [DEFAULT_LOADING_SELECTORS] and a max-visible-time of 0, namely with
    success, so that no failure message distinguishes them; it makes the
    same framework calls in the same order and drops the same [toPass]
    promises, followed by the promise of [checkTransientVisibility]
    itself, which it neither awaits nor returns. *)
Theorem checkNoCriticalLoadingIndicators_default (page : Page) (w : World) :
  let a := checkNoCriticalLoadingIndicators
             (CheckLoadingIndicatorsArgs.mk page None None) w in
  let b := checkTransientVisibility
             (CheckTransientVisibilityArgs.mk
                page DEFAULT_LOADING_SELECTORS (Some 0)) w in
  snd a = snd b
  /\ snd a = Resolved tt
  /\ calls (fst a) = calls (fst b)
  /\ floating (fst a) = floating (fst b) ++ [droppedCall (snd b)]
  /\ heap (fst a) = heap (fst b)
  /\ listeners (fst a) = listeners (fst b)
  /\ schedule (fst a) = schedule (fst b).
Proof.
  intros a b. subst a b.
  unfold checkNoCriticalLoadingIndicators, callDropped.
  cbn [CheckLoadingIndicatorsArgs.page CheckLoadingIndicatorsArgs.selectors
       CheckLoadingIndicatorsArgs.maxVisibleTime orDefault].
  rewrite checkTransientVisibility_run. repeat split.
Qed.

(** C8.  [DEFAULT_LOADING_SELECTORS] is the spinner selectors followed by
    the progress-bar selectors, twelve selectors in all.  Every class the
    source names for a component library is in the list, and the libraries
    named are six, so at least four.  The default max-visible-time is 0,
    in [checkNoCriticalLoadingIndicators] and in
    [checkTransientVisibility], and the default selector list of the
    former is [DEFAULT_LOADING_SELECTORS]. *)
Theorem DEFAULT_LOADING_SELECTORS_spec :
  DEFAULT_LOADING_SELECTORS
  = DEFAULT_SPINNER_SELECTOR ++ DEFAULT_PROGRESS_BAR_SELECTOR
  /\ DEFAULT_LOADING_SELECTORS
     = [ ".spinner"; ".loading-spinner"; ".loading-indicator"; ".ant-spin";
         ".fa-spinner"; ".fas.fa-spinner"; ".v-progress-circular";
         ".el-loading-spinner"; ".progress-bar"; "[role='progressbar']";
         ".mat-progress-bar"; ".MuiCircularProgress-root" ]%string
  /\ forallb (fun c => existsb (String.eqb (snd c)) DEFAULT_LOADING_SELECTORS)
             NAMED_LIBRARY_CLASSES = true
  /\ (4 <= length (nodup string_dec (map fst NAMED_LIBRARY_CLASSES)))%nat
  /\ (forall (page : Page) (selectors : option (list string)) (w : World),
        checkNoCriticalLoadingIndicators
          (CheckLoadingIndicatorsArgs.mk page selectors None) w
        = checkNoCriticalLoadingIndicators
            (CheckLoadingIndicatorsArgs.mk page selectors (Some 0)) w)
  /\ (forall (page : Page) (maxVisibleTime : option Z) (w : World),
        checkNoCriticalLoadingIndicators
          (CheckLoadingIndicatorsArgs.mk page None maxVisibleTime) w
        = checkNoCriticalLoadingIndicators
            (CheckLoadingIndicatorsArgs.mk
               page (Some DEFAULT_LOADING_SELECTORS) maxVisibleTime) w)
  /\ (forall (page : Page) (selectors : list string) (w : World),
        checkTransientVisibility
          (CheckTransientVisibilityArgs.mk page selectors None) w
        = checkTransientVisibility
            (CheckTransientVisibilityArgs.mk page selectors (Some 0)) w).
Proof.
  split; [reflexivity|]. split; [reflexivity|]. split; [reflexivity|].
  split; [vm_compute; lia|]. repeat split.
Qed.

(** ** checkNoUnhandledNetworkFailures *)

Lemma deliver_calls b w : calls (deliver b w) = calls w.
Proof. reflexivity. Qed.

Lemma deliver_all_calls (bs : list (list Request)) :
  forall w, calls (fold_left (fun w' b => deliver b w') bs w) = calls w.
Proof.
  induction bs as [|b bs IH]; intros w; [reflexivity|].
  cbn [fold_left]. rewrite IH. apply deliver_calls.
Qed.

Lemma drain_calls w : calls (drain w) = calls w.
Proof. unfold drain. rewrite deliver_all_calls. reflexivity. Qed.

Lemma run_result {A} (m : Async A) (w : World) : snd (run m w) = snd (m w).
Proof. unfold run. destruct (m w). reflexivity. Qed.

Lemma run_calls {A} (m : Async A) (w : World) :
  calls (fst (run m w)) = calls (fst (m w)).
Proof. unfold run. destruct (m w). cbn [fst]. apply drain_calls. Qed.

(** A freshly allocated array is empty. *)
Lemma fresh_array_length (w : World) :
  array_length (snd (alloc w)) (fst (alloc w)) = 0.
Proof.
  unfold array_length, alloc. cbn [fst snd heap].
  rewrite app_nth2, Nat.sub_diag by lia. reflexivity.
Qed.

Lemma checkNoUnhandledNetworkFailures_run (args : CheckArgs.t) (w : World) :
  let w1 := suspend (log (page_route ROUTE_GLOB) w) in
  checkNoUnhandledNetworkFailures args w =
    match route (CheckArgs.page args) ROUTE_GLOB with
    | Resolved _ =>
        (mkWorld
           (calls w ++ [page_route ROUTE_GLOB; page_on "requestfailed";
                        expect_ None (VNum 0) toBe (VNum 0)])
           (floating w1) (heap w1 ++ [[]])
           (listeners w1
            ++ [("requestfailed"%string,
                 collectFailedRequest (length (heap w1)))])
           (schedule w1),
         Resolved tt)
    | Rejected e => (w1, Rejected e)
    | Pending => (w1, Pending)
    end.
Proof.
  intros w1. unfold checkNoUnhandledNetworkFailures, bind, call, await.
  fold ROUTE_GLOB. fold w1.
  destruct (route (CheckArgs.page args) ROUTE_GLOB) as [[]|e|];
    try reflexivity.
  unfold newArray, on, lengthOf, expect, bind, call.
  pose proof (fresh_array_length w1) as Hlen. unfold alloc in *.
  cbn [fst snd calls floating heap listeners schedule] in *.
  unfold array_length in *. cbn [heap] in *. rewrite Hlen.
  cbn [matches Object_is Z.eqb]. unfold ret, log.
  cbn [fst snd calls floating heap listeners schedule].
  subst w1. rewrite suspend_calls, calls_log, <- !app_assoc. reflexivity.
Qed.

(** C10.  [checkNoUnhandledNetworkFailures] allocates the array,
    subscribes the listener and asserts on the array's length without
    suspending in between: whatever the page, the listeners and arrays
    already there, and the request-failed events scheduled, the value the
    assertion receives is 0, the assertion passes, and the check settles
    exactly as the call to [page.route] does. *)
Theorem checkNoUnhandledNetworkFailures_asserts_on_empty
  (args : CheckArgs.t) (w : World) :
  let routed := route (CheckArgs.page args) ROUTE_GLOB in
  let out := run (checkNoUnhandledNetworkFailures args) w in
  snd out = routed
  /\ calls (fst out)
     = calls w
       ++ page_route ROUTE_GLOB
       :: (if succeeded routed
           then [page_on "requestfailed";
                 expect_ None (VNum 0) toBe (VNum 0)]
           else [])
  /\ matches toBe (VNum 0) (VNum 0) = true.
Proof.
  intros routed out. subst out.
  rewrite run_result, run_calls, checkNoUnhandledNetworkFailures_run.
  fold routed. destruct routed as [[]|e|]; cbn [fst snd succeeded calls].
  - repeat split.
  - rewrite suspend_calls. repeat split.
  - rewrite suspend_calls. repeat split.
Qed.

(** C3, on the code.  On a page whose [page.route] resolves: with no
    failing request the check passes; with one failing image request it
    passes and the listener collects nothing; with one failing script
    request it passes as well.  A script that fails after the listener was
    subscribed is collected, one request too late for the assertion, which
    had received the length 0; a script that fails while the check is
    still awaiting [page.route] is not collected at all. *)
Theorem checkNoUnhandledNetworkFailures_script_failure_passes :
  let check sched :=
    run (checkNoUnhandledNetworkFailures (CheckArgs.mk loadedPage))
        (emptyWorld sched) in
  let expected := [ page_route ROUTE_GLOB; page_on "requestfailed";
                    expect_ None (VNum 0) toBe (VNum 0) ] in
  (snd (check []) = Resolved tt /\ heap (fst (check [])) = [[]])
  /\ (snd (check [[]; [imageFailure]]) = Resolved tt
      /\ heap (fst (check [[]; [imageFailure]])) = [[]])
  /\ (snd (check [[]; [scriptFailure]]) = Resolved tt
      /\ heap (fst (check [[]; [scriptFailure]])) = [[scriptFailure]]
      /\ calls (fst (check [[]; [scriptFailure]])) = expected)
  /\ (snd (check [[scriptFailure]]) = Resolved tt
      /\ heap (fst (check [[scriptFailure]])) = [[]]
      /\ calls (fst (check [[scriptFailure]])) = expected).
Proof. repeat split. Qed.

(** * Further properties *)

(** ** checkPageIsLoaded *)

(** X1.  [checkPageIsLoaded] succeeds exactly when the wait for
    [domcontentloaded] resolved, the wait for [load] resolved, and the
    ready state was read as ["complete"]. *)
Theorem checkPageIsLoaded_passes_iff (args : CheckArgs.t) (w : World) :
  snd (checkPageIsLoaded args w) = Resolved tt <->
  waitForLoadState (CheckArgs.page args) domcontentloaded = Resolved tt
  /\ waitForLoadState (CheckArgs.page args) load = Resolved tt
  /\ evaluate_readyState (CheckArgs.page args) = Resolved complete.
Proof.
  unfold checkPageIsLoaded, bind, call, await, expect, bind, call.
  destruct (waitForLoadState (CheckArgs.page args) domcontentloaded)
    as [[]|e1|]; cbn [fst snd];
    [| split; [discriminate | intros (H & _); discriminate]
     | split; [discriminate | intros (H & _); discriminate]].
  destruct (waitForLoadState (CheckArgs.page args) load)
    as [[]|e2|]; cbn [fst snd];
    [| split; [discriminate | intros (_ & H & _); discriminate]
     | split; [discriminate | intros (_ & H & _); discriminate]].
  destruct (evaluate_readyState (CheckArgs.page args))
    as [rs|e3|]; cbn [fst snd];
    [| split; [discriminate | intros (_ & _ & H); discriminate]
     | split; [discriminate | intros (_ & _ & H); discriminate]].
  destruct rs; cbn; split; intros H; try discriminate;
    try (destruct H as (_ & _ & H); discriminate); auto.
Qed.

(** X2.  A rejection of [checkPageIsLoaded] is either the rejection of one
    of the three promises it awaits, passed on unchanged and reached only
    after the promises before it resolved, or the failure of its one
    assertion on a ready state other than ["complete"]. *)
Theorem checkPageIsLoaded_rejection (args : CheckArgs.t) (w : World)
  (e : Error) :
  snd (checkPageIsLoaded args w) = Rejected e ->
  let page := CheckArgs.page args in
  waitForLoadState page domcontentloaded = Rejected e
  \/ (waitForLoadState page domcontentloaded = Resolved tt
      /\ waitForLoadState page load = Rejected e)
  \/ (waitForLoadState page domcontentloaded = Resolved tt
      /\ waitForLoadState page load = Resolved tt
      /\ evaluate_readyState page = Rejected e)
  \/ (waitForLoadState page domcontentloaded = Resolved tt
      /\ waitForLoadState page load = Resolved tt
      /\ exists rs, evaluate_readyState page = Resolved rs
                    /\ rs <> complete
                    /\ e = AssertionFailed (readyStateMismatch rs)).
Proof.
  unfold checkPageIsLoaded, bind, call, await, expect, bind, call.
  destruct (waitForLoadState (CheckArgs.page args) domcontentloaded)
    as [[]|e1|]; cbn [fst snd]; [| intros [= ->]; left; reflexivity
                                 | discriminate].
  destruct (waitForLoadState (CheckArgs.page args) load)
    as [[]|e2|]; cbn [fst snd]; [| intros [= ->]; right; left; auto
                                 | discriminate].
  destruct (evaluate_readyState (CheckArgs.page args))
    as [rs|e3|]; cbn [fst snd]; [| intros [= ->]; right; right; left; auto
                                 | discriminate].
  destruct rs; cbn; intros H; try discriminate; injection H as <-;
    right; right; right; repeat split;
    eexists; (split; [reflexivity | split; [discriminate | reflexivity]]).
Qed.

Lemma checkPageIsLoaded_rejection_witness :
  waitForLoadState timedOutPage domcontentloaded
  = Rejected (FrameworkError
                "page.waitForLoadState: Timeout 30000ms exceeded.")
  \/ (waitForLoadState timedOutPage domcontentloaded = Resolved tt
      /\ waitForLoadState timedOutPage load
         = Rejected (FrameworkError
                       "page.waitForLoadState: Timeout 30000ms exceeded."))
  \/ (waitForLoadState timedOutPage domcontentloaded = Resolved tt
      /\ waitForLoadState timedOutPage load = Resolved tt
      /\ evaluate_readyState timedOutPage
         = Rejected (FrameworkError
                       "page.waitForLoadState: Timeout 30000ms exceeded."))
  \/ (waitForLoadState timedOutPage domcontentloaded = Resolved tt
      /\ waitForLoadState timedOutPage load = Resolved tt
      /\ exists rs, evaluate_readyState timedOutPage = Resolved rs
                    /\ rs <> complete
                    /\ FrameworkError
                         "page.waitForLoadState: Timeout 30000ms exceeded."
                       = AssertionFailed (readyStateMismatch rs)).
Proof.
  apply (checkPageIsLoaded_rejection (CheckArgs.mk timedOutPage)
           (emptyWorld [])).
  reflexivity.
Defined.

(** X3.  When one of the three awaited promises does not resolve,
    [checkPageIsLoaded] does not succeed, stops at that promise and makes
    no assertion: the calls it adds are the first one, two or three of its
    calls, none of them an assertion. *)
Theorem checkPageIsLoaded_stops (args : CheckArgs.t) (w : World) :
  let page := CheckArgs.page args in
  waitForLoadState page domcontentloaded <> Resolved tt
  \/ waitForLoadState page load <> Resolved tt
  \/ (forall rs, evaluate_readyState page <> Resolved rs) ->
  snd (checkPageIsLoaded args w) <> Resolved tt
  /\ exists k,
       (1 <= k <= 3)%nat
       /\ calls (fst (checkPageIsLoaded args w))
          = calls w ++ firstn k (pageIsLoadedCalls complete)
       /\ existsb isAssertion (firstn k (pageIsLoadedCalls complete)) = false.
Proof.
  intros page H. subst page.
  unfold checkPageIsLoaded, bind, call, await, expect, bind, call.
  destruct (waitForLoadState (CheckArgs.page args) domcontentloaded)
    as [[]|e1|]; cbn [fst snd];
    [| split; [discriminate | exists 1%nat; rewrite suspend_calls;
                              repeat split; lia]
     | split; [discriminate | exists 1%nat; rewrite suspend_calls;
                              repeat split; lia]].
  destruct (waitForLoadState (CheckArgs.page args) load)
    as [[]|e2|]; cbn [fst snd];
    [| split; [discriminate
              | exists 2%nat;
                rewrite suspend_calls, calls_log, suspend_calls, calls_log,
                  <- app_assoc; repeat split; lia]
     | split; [discriminate
              | exists 2%nat;
                rewrite suspend_calls, calls_log, suspend_calls, calls_log,
                  <- app_assoc; repeat split; lia]].
  destruct (evaluate_readyState (CheckArgs.page args))
    as [rs|e3|]; cbn [fst snd].
  - exfalso. destruct H as [H|[H|H]]; try congruence. exact (H rs eq_refl).
  - split; [discriminate|]. exists 3%nat.
    rewrite suspend_calls, calls_log, suspend_calls, calls_log,
      suspend_calls, calls_log, <- !app_assoc. repeat split; lia.
  - split; [discriminate|]. exists 3%nat.
    rewrite suspend_calls, calls_log, suspend_calls, calls_log,
      suspend_calls, calls_log, <- !app_assoc. repeat split; lia.
Qed.

Lemma checkPageIsLoaded_stops_witness :
  snd (checkPageIsLoaded (CheckArgs.mk timedOutPage) (emptyWorld []))
  <> Resolved tt
  /\ exists k,
       (1 <= k <= 3)%nat
       /\ calls (fst (checkPageIsLoaded (CheckArgs.mk timedOutPage)
                                        (emptyWorld [])))
          = calls (emptyWorld []) ++ firstn k (pageIsLoadedCalls complete)
       /\ existsb isAssertion (firstn k (pageIsLoadedCalls complete)) = false.
Proof.
  apply (checkPageIsLoaded_stops (CheckArgs.mk timedOutPage) (emptyWorld [])).
  right; left. discriminate.
Defined.

(** ** checkBasicContentPresence *)

(** X4.  When [page.$eval] rejects, [checkBasicContentPresence] rejects
    with the same error and asserts nothing: the call to [page.$eval] is
    the only call it makes. *)
Theorem checkBasicContentPresence_eval_rejected (args : CheckArgs.t)
  (w : World) (e : Error) :
  eval_body_innerHTML (CheckArgs.page args) = Rejected e ->
  snd (checkBasicContentPresence args w) = Rejected e
  /\ calls (fst (checkBasicContentPresence args w))
     = calls w ++ [page_eval_body_innerHTML].
Proof.
  intros H. unfold checkBasicContentPresence, bind, call, await.
  rewrite H. cbn [fst snd]. rewrite suspend_calls. split; reflexivity.
Qed.

Lemma checkBasicContentPresence_eval_rejected_witness :
  snd (checkBasicContentPresence (CheckArgs.mk bodylessPage) (emptyWorld []))
  = Rejected (FrameworkError
                "page.$eval: Failed to find element matching selector body")
  /\ calls (fst (checkBasicContentPresence (CheckArgs.mk bodylessPage)
                                           (emptyWorld [])))
     = calls (emptyWorld []) ++ [page_eval_body_innerHTML].
Proof.
  apply (checkBasicContentPresence_eval_rejected
           (CheckArgs.mk bodylessPage) (emptyWorld [])).
  reflexivity.
Defined.

(** X5.  White space around the body markup does not change the outcome
    of [checkBasicContentPresence]: a body and the same body between two
    runs of white space settle the check the same way. *)
Theorem checkBasicContentPresence_padding (page : Page) (w w' : World)
  (before body after : JsString) :
  forallb isWhiteSpace before = true ->
  forallb isWhiteSpace after = true ->
  snd (checkBasicContentPresence
         (CheckArgs.mk (withBody page (before ++ body ++ after))) w)
  = snd (checkBasicContentPresence (CheckArgs.mk (withBody page body)) w').
Proof.
  intros Hb Ha.
  rewrite (checkBasicContentPresence_run
             (CheckArgs.mk (withBody page (before ++ body ++ after))) w
             (before ++ body ++ after) eq_refl).
  rewrite (checkBasicContentPresence_run
             (CheckArgs.mk (withBody page body)) w' body eq_refl).
  rewrite !forallb_app, Hb, Ha, andb_true_r. reflexivity.
Qed.

Lemma checkBasicContentPresence_padding_witness :
  snd (checkBasicContentPresence
         (CheckArgs.mk
            (withBody loadedPage
               (jsString "  " ++ jsString "<p>x</p>" ++ [10; 9]%N)))
         (emptyWorld []))
  = snd (checkBasicContentPresence
           (CheckArgs.mk (withBody loadedPage (jsString "<p>x</p>")))
           (emptyWorld [])).
Proof.
  apply checkBasicContentPresence_padding; reflexivity.
Defined.

Lemma trimStart_split (s : JsString) :
  exists l, s = l ++ trimStart s /\ forallb isWhiteSpace l = true.
Proof.
  induction s as [|c s (l & E & Hl)].
  - exists []. split; reflexivity.
  - cbn [trimStart]. destruct (isWhiteSpace c) eqn:Hc.
    + exists (c :: l). cbn [app forallb]. rewrite Hc, Hl, <- E.
      split; reflexivity.
    + exists []. split; reflexivity.
Qed.

Lemma trimStart_head (c : N) (s : JsString) :
  isWhiteSpace c = false -> trimStart (c :: s) = c :: s.
Proof. intros H. cbn [trimStart]. rewrite H. reflexivity. Qed.

(** What [trimStart] leaves does not begin with white space. *)
Lemma trimStart_starts (s : JsString) :
  match trimStart s with
  | [] => True
  | c :: _ => isWhiteSpace c = false
  end.
Proof.
  induction s as [|c s IH]; cbn [trimStart]; [exact I|].
  destruct (isWhiteSpace c) eqn:Hc; [exact IH | exact Hc].
Qed.

Lemma trimEnd_split (s : JsString) :
  exists r, s = trimEnd s ++ r /\ forallb isWhiteSpace r = true.
Proof.
  destruct (trimStart_split (rev s)) as (l & E & Hl).
  exists (rev l). unfold trimEnd. rewrite <- rev_app_distr, <- E.
  rewrite rev_involutive, forallb_rev_eq. split; [reflexivity | exact Hl].
Qed.

Lemma trimEnd_trimEnd (s : JsString) : trimEnd (trimEnd s) = trimEnd s.
Proof.
  unfold trimEnd. rewrite rev_involutive.
  pose proof (trimStart_starts (rev s)) as H.
  destruct (trimStart (rev s)) as [|c t]; [reflexivity|].
  rewrite (trimStart_head c t H). reflexivity.
Qed.

(** [trimEnd] keeps a first code unit that is not white space. *)
Lemma trimStart_trimEnd (s : JsString) :
  trimStart s = s -> trimStart (trimEnd s) = trimEnd s.
Proof.
  intros Hs. destruct (trimEnd_split s) as (r & E & _).
  pose proof (trimStart_starts s) as H. rewrite Hs in H.
  destruct (trimEnd s) as [|c t]; [reflexivity|].
  rewrite E in H. cbn [app] in H. apply trimStart_head. exact H.
Qed.

Lemma trimStart_trimStart (s : JsString) :
  trimStart (trimStart s) = trimStart s.
Proof.
  pose proof (trimStart_starts s) as H.
  destruct (trimStart s) as [|c t]; [reflexivity|].
  apply trimStart_head. exact H.
Qed.

(** X6.  The [trim] of the check removes a leading and a trailing run of
    white space and nothing else: the string is a run of white space, the
    trimmed string, and a run of white space; the first code unit of the
    trimmed string, if there is one, is not white space, and neither is
    its last; and trimming it again changes nothing. *)
Theorem trim_spec (s : JsString) :
  (exists l r, s = l ++ trim s ++ r
               /\ forallb isWhiteSpace l = true
               /\ forallb isWhiteSpace r = true)
  /\ forallb (fun c => negb (isWhiteSpace c)) (firstn 1 (trim s)) = true
  /\ forallb (fun c => negb (isWhiteSpace c)) (firstn 1 (rev (trim s))) = true
  /\ trimStart (trim s) = trim s
  /\ trimEnd (trim s) = trim s
  /\ trim (trim s) = trim s.
Proof.
  assert (H1 : trimStart (trim s) = trim s).
  { unfold trim. apply trimStart_trimEnd, trimStart_trimStart. }
  assert (H2 : trimEnd (trim s) = trim s).
  { unfold trim. apply trimEnd_trimEnd. }
  split; [|split; [|split; [|split; [exact H1 | split; [exact H2|]]]]].
  - destruct (trimStart_split s) as (l & El & Hl).
    destruct (trimEnd_split (trimStart s)) as (r & Er & Hr).
    exists l, r. unfold trim. rewrite <- Er. auto.
  - pose proof (trimStart_starts (trim s)) as H. rewrite H1 in H.
    destruct (trim s) as [|c u]; [reflexivity|].
    cbn [firstn forallb]. rewrite H. reflexivity.
  - assert (H3 : trimStart (rev (trim s)) = rev (trim s)).
    { unfold trimEnd in H2. apply (f_equal (@rev N)) in H2.
      rewrite rev_involutive in H2. exact H2. }
    pose proof (trimStart_starts (rev (trim s))) as H. rewrite H3 in H.
    destruct (rev (trim s)) as [|c u]; [reflexivity|].
    cbn [firstn forallb]. rewrite H. reflexivity.
  - change (trim (trim s)) with (trimEnd (trimStart (trim s))).
    rewrite H1. exact H2.
Qed.

(** ** checkTransientVisibility *)

Lemma selectorTasks_length (page : Page) (t : Z) (selectors : list string) :
  length (selectorTasks page t selectors)
  = length (filter (hasLocator page) selectors).
Proof.
  induction selectors as [|s rest IH]; [reflexivity|].
  cbn [selectorTasks filter]. unfold hasLocator at 1.
  destruct (locator page s); cbn [length]; rewrite IH; reflexivity.
Qed.

Lemma selectorTasks_messages (page : Page) (t : Z) (selectors : list string) :
  map taskMessage (selectorTasks page t selectors)
  = map (fun s => Some (stillVisibleMessage s t))
        (filter (hasLocator page) selectors).
Proof.
  induction selectors as [|s rest IH]; [reflexivity|].
  cbn [selectorTasks filter]. unfold hasLocator at 1.
  destruct (locator page s); cbn [map taskMessage]; rewrite IH; reflexivity.
Qed.

Lemma selectorCalls_locators (page : Page) (t : Z) (selectors : list string) :
  locatorCalls (selectorCalls page t selectors) = selectors
  /\ length (filter isAssertion (selectorCalls page t selectors))
     = length (filter (hasLocator page) selectors).
Proof.
  induction selectors as [|s rest [IH1 IH2]]; [split; reflexivity|].
  cbn [selectorCalls locatorCalls filter isAssertion]. unfold hasLocator at 1.
  destruct (locator page s);
    cbn [locatorCalls filter isAssertion length]; rewrite IH1, IH2;
    split; reflexivity.
Qed.

Lemma append_assoc (a b c : string) : (a ^^ b) ^^ c = a ^^ b ^^ c.
Proof.
  induction a as [|x a IH]; [reflexivity|].
  cbn [String.append]. rewrite IH. reflexivity.
Qed.

Lemma append_empty (a : string) : a ^^ EmptyString = a.
Proof.
  induction a as [|x a IH]; [reflexivity|].
  cbn [String.append]. rewrite IH. reflexivity.
Qed.

(** X7.  [checkTransientVisibility] never rejects and never suspends:
    whatever the page, the selectors, the duration and the locators do, it
    resolves, no request-failed event is delivered while it runs, and what
    it leaves behind is one dropped [toPass] assertion per selector that
    has a locator, each of which passes. *)
Theorem checkTransientVisibility_never_rejects
  (args : CheckTransientVisibilityArgs.t) (w : World) :
  let out := checkTransientVisibility args w in
  let page := CheckTransientVisibilityArgs.page args in
  let selectors := CheckTransientVisibilityArgs.selectors args in
  snd out = Resolved tt
  /\ heap (fst out) = heap w
  /\ listeners (fst out) = listeners w
  /\ schedule (fst out) = schedule w
  /\ exists tasks,
       floating (fst out) = floating w ++ tasks
       /\ length tasks = length (filter (hasLocator page) selectors)
       /\ Forall (fun task => settles task = Resolved tt) tasks.
Proof.
  intros out page selectors. subst out.
  rewrite checkTransientVisibility_run. cbn [fst snd heap listeners schedule].
  repeat split. eexists. cbn [floating].
  split; [reflexivity|]. split.
  - apply selectorTasks_length.
  - apply selectorTasks_settle.
Qed.

(** X8.  [checkTransientVisibility] calls [page.locator] once for every
    selector, in the order of the list and also for selectors listed more
    than once, and makes as many [toPass] assertions as there are
    selectors with a locator. *)
Theorem checkTransientVisibility_locator_calls
  (args : CheckTransientVisibilityArgs.t) (w : World) :
  let page := CheckTransientVisibilityArgs.page args in
  let selectors := CheckTransientVisibilityArgs.selectors args in
  exists cs,
    calls (fst (checkTransientVisibility args w)) = calls w ++ cs
    /\ locatorCalls cs = selectors
    /\ length (filter isAssertion cs)
       = length (filter (hasLocator page) selectors).
Proof.
  intros page selectors. rewrite checkTransientVisibility_run.
  eexists. cbn [fst calls]. split; [reflexivity|].
  apply selectorCalls_locators.
Qed.

(** X9.  The messages of the [toPass] assertions that
    [checkTransientVisibility] creates are, in order, the messages of the
    selectors that have a locator, and the message of a selector contains
    the selector and the duration followed by [ms]. *)
Theorem checkTransientVisibility_messages
  (args : CheckTransientVisibilityArgs.t) (w : World) :
  let page := CheckTransientVisibilityArgs.page args in
  let selectors := CheckTransientVisibilityArgs.selectors args in
  let t := orDefault 0 (CheckTransientVisibilityArgs.maxVisibleTime args) in
  (exists tasks,
     floating (fst (checkTransientVisibility args w)) = floating w ++ tasks
     /\ map taskMessage tasks
        = map (fun s => Some (stillVisibleMessage s t))
              (filter (hasLocator page) selectors))
  /\ forall s,
       includes s (stillVisibleMessage s t) = true
       /\ includes (numberToString t ^^ "ms") (stillVisibleMessage s t) = true.
Proof.
  intros page selectors t. split.
  - rewrite checkTransientVisibility_run. eexists. cbn [fst floating].
    split; [reflexivity|]. apply selectorTasks_messages.
  - intros s. unfold stillVisibleMessage. split.
    + apply includes_app.
    + rewrite <- (append_empty (numberToString t ^^ "ms")) at 2.
      rewrite <- !append_assoc.
      rewrite (append_assoc _ (numberToString t) "ms").
      rewrite (append_assoc _ (numberToString t ^^ "ms") EmptyString).
      apply includes_app.
Qed.

(** X10.  Checking a list of selectors that is the concatenation of two
    lists is checking the first list and then, in the world this leaves,
    the second. *)
Theorem checkTransientVisibility_app (page : Page) (xs ys : list string)
  (maxVisibleTime : option Z) (w : World) :
  checkTransientVisibility
    (CheckTransientVisibilityArgs.mk page (xs ++ ys) maxVisibleTime) w
  = checkTransientVisibility
      (CheckTransientVisibilityArgs.mk page ys maxVisibleTime)
      (fst (checkTransientVisibility
              (CheckTransientVisibilityArgs.mk page xs maxVisibleTime) w)).
Proof.
  rewrite !checkTransientVisibility_run.
  cbn [fst calls floating heap listeners schedule
       CheckTransientVisibilityArgs.page
       CheckTransientVisibilityArgs.selectors
       CheckTransientVisibilityArgs.maxVisibleTime].
  rewrite selectorCalls_app, selectorTasks_app, !app_assoc. reflexivity.
Qed.

(** ** checkNoCriticalLoadingIndicators *)

(** X11.  With or without overrides, [checkNoCriticalLoadingIndicators]
    resolves and does not suspend.  It makes the framework calls and
    drops the [toPass] assertions of [checkTransientVisibility] on the
    selectors and the duration in force (the overrides, or else
    [DEFAULT_LOADING_SELECTORS] and 0), and drops the promise of that
    call, already resolved, after them. *)
Theorem checkNoCriticalLoadingIndicators_delegates
  (args : CheckLoadingIndicatorsArgs.t) (w : World) :
  let page := CheckLoadingIndicatorsArgs.page args in
  let selectors :=
    orDefault DEFAULT_LOADING_SELECTORS
              (CheckLoadingIndicatorsArgs.selectors args) in
  let t := orDefault 0 (CheckLoadingIndicatorsArgs.maxVisibleTime args) in
  let a := checkNoCriticalLoadingIndicators args w in
  let b := checkTransientVisibility
             (CheckTransientVisibilityArgs.mk page selectors (Some t)) w in
  snd a = Resolved tt
  /\ calls (fst a) = calls (fst b)
  /\ floating (fst a) = floating (fst b) ++ [droppedCall (Resolved tt)]
  /\ heap (fst a) = heap w
  /\ listeners (fst a) = listeners w
  /\ schedule (fst a) = schedule w.
Proof.
  intros page selectors t a b. subst a b.
  unfold checkNoCriticalLoadingIndicators, callDropped.
  fold page selectors t. rewrite checkTransientVisibility_run.
  repeat split.
Qed.

(** ** checkNoUnhandledNetworkFailures *)

Lemma push_at_length (a : nat) (r : Request) (h : list (list Request)) :
  length (push_at a r h) = length h.
Proof.
  revert a. induction h as [|arr h IH]; intros a;
    [destruct a; reflexivity|].
  destruct a; cbn [push_at length]; [reflexivity|]. rewrite IH. reflexivity.
Qed.

Lemma nth_push_at_same (a : nat) (r : Request) (h : list (list Request)) :
  (a < length h)%nat -> nth a (push_at a r h) [] = nth a h [] ++ [r].
Proof.
  revert a. induction h as [|arr h IH]; intros a Ha; cbn [length] in Ha;
    [lia|].
  destruct a; cbn [push_at nth]; [reflexivity|]. apply IH. lia.
Qed.

Lemma nth_push_at_other (a b : nat) (r : Request) (h : list (list Request)) :
  a <> b -> nth b (push_at a r h) [] = nth b h [].
Proof.
  revert a b. induction h as [|arr h IH]; intros a b Hab;
    [destruct a; reflexivity|].
  destruct a, b; cbn [push_at nth]; try reflexivity; try congruence.
  apply IH. congruence.
Qed.

Lemma invoke_length (h : Handler) (r : Request) (hp : list (list Request)) :
  length (invoke h r hp) = length hp.
Proof.
  destruct h as [a]. cbn [invoke].
  destruct (_ || _); [apply push_at_length | reflexivity].
Qed.

Lemma emit_length (ls : list (string * Handler)) (r : Request) :
  forall hp, length (emit ls r hp) = length hp.
Proof.
  unfold emit. induction ls as [|l ls IH]; intros hp; [reflexivity|].
  cbn [fold_left]. rewrite IH.
  destruct (String.eqb (fst l) "requestfailed");
    [apply invoke_length | reflexivity].
Qed.

Lemma emit_batch_length (ls : list (string * Handler)) (batch : list Request) :
  forall hp,
    length (fold_left (fun hp' r => emit ls r hp') batch hp) = length hp.
Proof.
  induction batch as [|r batch IH]; intros hp; [reflexivity|].
  cbn [fold_left]. rewrite IH. apply emit_length.
Qed.

Lemma suspend_listeners (w : World) : listeners (suspend w) = listeners w.
Proof. unfold suspend. destruct (schedule w); reflexivity. Qed.

Lemma suspend_heap_length (w : World) :
  length (heap (suspend w)) = length (heap w).
Proof.
  unfold suspend. destruct (schedule w); [reflexivity|].
  cbn [deliver heap listeners]. apply emit_batch_length.
Qed.

Lemma suspend_schedule (w : World) : schedule (suspend w) = tl (schedule w).
Proof. unfold suspend. destruct (schedule w) eqn:E; [rewrite E|]; reflexivity. Qed.

Lemma deliver_all_listeners (bs : list (list Request)) :
  forall w,
    listeners (fold_left (fun w' b => deliver b w') bs w) = listeners w.
Proof.
  induction bs as [|b bs IH]; intros w; [reflexivity|].
  cbn [fold_left]. rewrite IH. reflexivity.
Qed.

Lemma deliver_all_heap_length (bs : list (list Request)) :
  forall w,
    length (heap (fold_left (fun w' b => deliver b w') bs w))
    = length (heap w).
Proof.
  induction bs as [|b bs IH]; intros w; [reflexivity|].
  cbn [fold_left]. rewrite IH. cbn [deliver heap]. apply emit_batch_length.
Qed.

(** Listeners that write elsewhere leave the array at [a] alone. *)
Lemma emit_others (a : nat) (r : Request) (ls : list (string * Handler)) :
  forallb (fun l => handlerAddress (snd l) <? a)%nat ls = true ->
  forall hp, nth a (fold_left
                      (fun hp' l => if String.eqb (fst l) "requestfailed"
                                    then invoke (snd l) r hp' else hp')
                      ls hp) []
             = nth a hp [].
Proof.
  induction ls as [|l ls IH]; intros Hls hp; [reflexivity|].
  cbn [forallb] in Hls. apply andb_true_iff in Hls. destruct Hls as [Hl Hls].
  cbn [fold_left]. rewrite (IH Hls).
  destruct (String.eqb (fst l) "requestfailed"); [|reflexivity].
  destruct (snd l) as [b]. cbn [handlerAddress] in Hl.
  apply Nat.ltb_lt in Hl. cbn [invoke].
  destruct (_ || _); [|reflexivity]. apply nth_push_at_other. lia.
Qed.

(** One event, with the listener of the check subscribed last. *)
Lemma emit_collects (a : nat) (r : Request) (ls : list (string * Handler))
  (hp : list (list Request)) :
  forallb (fun l => handlerAddress (snd l) <? a)%nat ls = true ->
  (a < length hp)%nat ->
  nth a (emit (ls ++ [("requestfailed"%string, collectFailedRequest a)]) r hp)
      []
  = nth a hp [] ++ filter isStyleOrScript [r].
Proof.
  intros Hls Ha. unfold emit. rewrite fold_left_app. cbn [fold_left fst snd].
  change (String.eqb "requestfailed" "requestfailed") with true. cbv iota.
  cbn [invoke filter]. unfold isStyleOrScript.
  destruct (_ || _).
  - rewrite nth_push_at_same.
    + rewrite (emit_others a r ls Hls). reflexivity.
    + change (fold_left _ ls hp) with (emit ls r hp). rewrite emit_length.
      exact Ha.
  - rewrite (emit_others a r ls Hls), app_nil_r. reflexivity.
Qed.

Lemma emit_batch_collects (a : nat) (ls : list (string * Handler))
  (batch : list Request) :
  forallb (fun l => handlerAddress (snd l) <? a)%nat ls = true ->
  forall hp,
    (a < length hp)%nat ->
    nth a (fold_left
             (fun hp' r =>
                emit (ls ++ [("requestfailed"%string, collectFailedRequest a)])
                     r hp')
             batch hp) []
    = nth a hp [] ++ filter isStyleOrScript batch.
Proof.
  intros Hls. induction batch as [|r batch IH]; intros hp Ha.
  - cbn. rewrite app_nil_r. reflexivity.
  - cbn [fold_left]. rewrite IH by (rewrite emit_length; exact Ha).
    rewrite (emit_collects a r ls hp Hls Ha).
    change (r :: batch) with ([r] ++ batch).
    rewrite filter_app, app_assoc. reflexivity.
Qed.

Lemma deliver_all_collects (a : nat) (ls : list (string * Handler))
  (bs : list (list Request)) :
  forallb (fun l => handlerAddress (snd l) <? a)%nat ls = true ->
  forall w,
    listeners w = ls ++ [("requestfailed"%string, collectFailedRequest a)] ->
    (a < length (heap w))%nat ->
    nth a (heap (fold_left (fun w' b => deliver b w') bs w)) []
    = nth a (heap w) [] ++ filter isStyleOrScript (concat bs).
Proof.
  intros Hls. induction bs as [|b bs IH]; intros w Hw Ha.
  - cbn. rewrite app_nil_r. reflexivity.
  - cbn [fold_left concat]. rewrite IH.
    + cbn [deliver heap]. rewrite Hw, emit_batch_collects by assumption.
      rewrite filter_app, app_assoc. reflexivity.
    + exact Hw.
    + cbn [deliver heap]. rewrite emit_batch_length. exact Ha.
Qed.

Lemma drain_listeners (w : World) : listeners (drain w) = listeners w.
Proof. unfold drain. rewrite deliver_all_listeners. reflexivity. Qed.

Lemma drain_heap_length (w : World) :
  length (heap (drain w)) = length (heap w).
Proof. unfold drain. rewrite deliver_all_heap_length. reflexivity. Qed.

Lemma wfWorld_ext (w w' : World) :
  listeners w' = listeners w ->
  length (heap w') = length (heap w) ->
  wfWorld w' = wfWorld w.
Proof. intros Hl Hh. unfold wfWorld. rewrite Hl, Hh. reflexivity. Qed.

(** The listener and the array that one successful check adds. *)
Lemma checkNoUnhandledNetworkFailures_subscribes (args : CheckArgs.t)
  (w : World) :
  route (CheckArgs.page args) ROUTE_GLOB = Resolved tt ->
  listeners (fst (checkNoUnhandledNetworkFailures args w))
  = listeners w
    ++ [("requestfailed"%string, collectFailedRequest (length (heap w)))]
  /\ length (heap (fst (checkNoUnhandledNetworkFailures args w)))
     = S (length (heap w)).
Proof.
  intros H. rewrite checkNoUnhandledNetworkFailures_run, H.
  cbn [fst listeners heap].
  rewrite suspend_listeners, length_app, suspend_heap_length.
  cbn [log listeners heap length]. split; [reflexivity | lia].
Qed.

(** X12.  [checkNoUnhandledNetworkFailures] never unsubscribes: on a page
    whose [page.route] resolves, [n] invocations leave the listeners that
    were there, followed by [n] new request-failed listeners, and [n] new
    arrays. *)
Theorem checkNoUnhandledNetworkFailures_listeners_accumulate
  (n : nat) (args : CheckArgs.t) (w : World) :
  route (CheckArgs.page args) ROUTE_GLOB = Resolved tt ->
  (exists new,
     listeners (repeatNetworkCheck n args w) = listeners w ++ new
     /\ length new = n
     /\ forallb (fun l => String.eqb (fst l) "requestfailed") new = true)
  /\ length (heap (repeatNetworkCheck n args w)) = (length (heap w) + n)%nat.
Proof.
  intros H. revert w. induction n as [|n IH]; intros w.
  - split; [exists []; rewrite app_nil_r; repeat split | cbn; lia].
  - cbn [repeatNetworkCheck].
    destruct (IH (fst (checkNoUnhandledNetworkFailures args w)))
      as ((new & Hl & Hn & Hev) & Hh).
    destruct (checkNoUnhandledNetworkFailures_subscribes args w H)
      as (Hl1 & Hh1).
    rewrite Hl1 in Hl. rewrite Hh1 in Hh. split; [|lia].
    eexists. rewrite Hl, <- app_assoc. split; [reflexivity|].
    cbn [app length forallb fst]. rewrite Hn, Hev. split; reflexivity.
Qed.

Lemma checkNoUnhandledNetworkFailures_listeners_accumulate_witness :
  (exists new,
     listeners (repeatNetworkCheck 3 (CheckArgs.mk loadedPage)
                  (emptyWorld [[scriptFailure]; [imageFailure]]))
     = listeners (emptyWorld [[scriptFailure]; [imageFailure]]) ++ new
     /\ length new = 3%nat
     /\ forallb (fun l => String.eqb (fst l) "requestfailed") new = true)
  /\ length (heap (repeatNetworkCheck 3 (CheckArgs.mk loadedPage)
                     (emptyWorld [[scriptFailure]; [imageFailure]])))
     = (length (heap (emptyWorld [[scriptFailure]; [imageFailure]])) + 3)%nat.
Proof.
  apply checkNoUnhandledNetworkFailures_listeners_accumulate. reflexivity.
Defined.

(** X13.  When [page.route] does not resolve,
    [checkNoUnhandledNetworkFailures] subscribes no listener and allocates
    no array. *)
Theorem checkNoUnhandledNetworkFailures_route_unresolved
  (args : CheckArgs.t) (w : World) :
  route (CheckArgs.page args) ROUTE_GLOB <> Resolved tt ->
  let out := run (checkNoUnhandledNetworkFailures args) w in
  listeners (fst out) = listeners w
  /\ length (heap (fst out)) = length (heap w)
  /\ existsb isAssertion (skipn (length (calls w)) (calls (fst out))) = false.
Proof.
  intros H out. subst out. unfold run.
  rewrite checkNoUnhandledNetworkFailures_run.
  destruct (route (CheckArgs.page args) ROUTE_GLOB) as [[]|e|];
    [congruence| |];
    cbn [fst]; rewrite drain_listeners, drain_heap_length, drain_calls,
      suspend_listeners, suspend_heap_length, suspend_calls, calls_log;
    rewrite skipn_app, Nat.sub_diag, skipn_all; repeat split.
Qed.

Lemma checkNoUnhandledNetworkFailures_route_unresolved_witness :
  listeners (fst (run (checkNoUnhandledNetworkFailures
                         (CheckArgs.mk stalledPage))
                      (emptyWorld [[scriptFailure]])))
  = listeners (emptyWorld [[scriptFailure]])
  /\ length (heap (fst (run (checkNoUnhandledNetworkFailures
                               (CheckArgs.mk stalledPage))
                            (emptyWorld [[scriptFailure]]))))
     = length (heap (emptyWorld [[scriptFailure]]))
  /\ existsb isAssertion
       (skipn (length (calls (emptyWorld [[scriptFailure]])))
          (calls (fst (run (checkNoUnhandledNetworkFailures
                              (CheckArgs.mk stalledPage))
                           (emptyWorld [[scriptFailure]])))))
     = false.
Proof.
  apply (checkNoUnhandledNetworkFailures_route_unresolved
           (CheckArgs.mk stalledPage) (emptyWorld [[scriptFailure]])).
  discriminate.
Defined.

Lemma forallb_lt_S (a : nat) (ls : list (string * Handler)) :
  forallb (fun l => handlerAddress (snd l) <? a)%nat ls = true ->
  forallb (fun l => handlerAddress (snd l) <? S a)%nat ls = true.
Proof.
  rewrite !forallb_forall. intros H l Hl. specialize (H l Hl).
  apply Nat.ltb_lt in H. apply Nat.ltb_lt. lia.
Qed.

(** Runs of the check keep the worlds they start from well formed, so
    that the worlds reached from an empty one are. *)
Lemma checkNoUnhandledNetworkFailures_keeps_wf
  (args : CheckArgs.t) (w : World) :
  wfWorld w = true ->
  wfWorld (fst (run (checkNoUnhandledNetworkFailures args) w)) = true.
Proof.
  intros Hwf. unfold run.
  destruct (checkNoUnhandledNetworkFailures args w) as [w' p] eqn:E.
  cbn [fst]. rewrite (wfWorld_ext w' (drain w'))
    by (apply drain_listeners || apply drain_heap_length).
  rewrite checkNoUnhandledNetworkFailures_run in E.
  destruct (route (CheckArgs.page args) ROUTE_GLOB) as [[]|e|];
    injection E as <- _.
  - unfold wfWorld in *. cbn [listeners heap].
    rewrite suspend_listeners, length_app, suspend_heap_length.
    cbn [log listeners heap length]. rewrite Nat.add_1_r, forallb_app.
    rewrite (forallb_lt_S _ _ Hwf). cbn [forallb snd handlerAddress].
    rewrite andb_true_r. apply Nat.ltb_lt. lia.
  - rewrite <- Hwf. apply wfWorld_ext;
      [rewrite suspend_listeners | rewrite suspend_heap_length]; reflexivity.
  - rewrite <- Hwf. apply wfWorld_ext;
      [rewrite suspend_listeners | rewrite suspend_heap_length]; reflexivity.
Qed.

(** X15.  In a well-formed world and on a page whose [page.route]
    resolves, the array of [checkNoUnhandledNetworkFailures] ends up
    holding the failed requests of type [stylesheet] or [script] that
    arrive after the check has resumed from [page.route], in order of
    arrival, and nothing else: requests of other types, requests that
    failed while [page.route] was awaited, and what other listeners
    collect do not enter it. *)
Theorem checkNoUnhandledNetworkFailures_collects
  (args : CheckArgs.t) (w : World) :
  wfWorld w = true ->
  route (CheckArgs.page args) ROUTE_GLOB = Resolved tt ->
  nth (length (heap w))
      (heap (fst (run (checkNoUnhandledNetworkFailures args) w))) []
  = filter isStyleOrScript (concat (tl (schedule w))).
Proof.
  intros Hwf H. unfold run.
  rewrite checkNoUnhandledNetworkFailures_run, H. cbn [fst].
  unfold drain. cbn [calls floating heap listeners schedule].
  set (w1 := suspend (log (page_route ROUTE_GLOB) w)).
  assert (Ha : length (heap w1) = length (heap w))
    by (subst w1; rewrite suspend_heap_length; reflexivity).
  assert (Hl : listeners w1 = listeners w)
    by (subst w1; rewrite suspend_listeners; reflexivity).
  assert (Hs : schedule w1 = tl (schedule w))
    by (subst w1; rewrite suspend_schedule; reflexivity).
  rewrite <- Ha, <- Hs.
  rewrite (deliver_all_collects (length (heap w1)) (listeners w1)).
  - cbn [heap]. rewrite app_nth2, Nat.sub_diag by lia. reflexivity.
  - rewrite Hl, Ha. exact Hwf.
  - reflexivity.
  - cbn [heap]. rewrite length_app. cbn [length]. lia.
Qed.

Lemma checkNoUnhandledNetworkFailures_collects_witness :
  nth (length (heap (repeatNetworkCheck 1 (CheckArgs.mk loadedPage)
                       (emptyWorld
                          [[]; [scriptFailure];
                           [imageFailure; scriptFailure]]))))
      (heap (fst (run (checkNoUnhandledNetworkFailures
                         (CheckArgs.mk loadedPage))
                      (repeatNetworkCheck 1 (CheckArgs.mk loadedPage)
                         (emptyWorld
                            [[]; [scriptFailure];
                             [imageFailure; scriptFailure]]))))) []
  = filter isStyleOrScript
      (concat (tl (schedule
                     (repeatNetworkCheck 1 (CheckArgs.mk loadedPage)
                        (emptyWorld
                           [[]; [scriptFailure];
                            [imageFailure; scriptFailure]]))))).
Proof.
  apply checkNoUnhandledNetworkFailures_collects; reflexivity.
Defined.

(** ** checkPageFound *)

(** X16.  The failure texts of the three assertions of [checkPageFound]
    differ from one another, whatever the status: the text tells which
    clause failed. *)
Theorem checkPageFound_texts_differ (st : Z) :
  errorMessage (AssertionFailed okClause)
  <> errorMessage (AssertionFailed not404Clause)
  /\ errorMessage (AssertionFailed okClause)
     <> errorMessage (AssertionFailed (is200Clause st))
  /\ errorMessage (AssertionFailed not404Clause)
     <> errorMessage (AssertionFailed (is200Clause st)).
Proof.
  split; [discriminate|]. split; intros H.
  - apply (f_equal (String.prefix "Response status is not 200")) in H.
    discriminate H.
  - apply (f_equal (String.prefix "Response status is not 200")) in H.
    discriminate H.
Qed.
